(** * Circle9: the front end's session registry, transfer manager and
      drag-and-drop translator

    A shallow embedding of the TypeScript services of the Circle9
    Windows/Linux file bridge:

    - [Service/ssh_state.ts]       class [SSHStateManager]
    - [Service/transfer_queue.ts]  class [TransferQueueManager]
    - [Components/Transfer/DragDropHandler.ts]  class [DragDropHandler]
    - [Util/constants.ts]          [MAX_CONCURRENT_TRANSFERS]

    and, further down, of what surrounds them: the [Resizer] of
    [Components/Layout/resizer.ts], [Service/storage.ts], the SSH
    configuration dialog, the status bar's transfer count, the connection
    panel's clock and [Components/Theme/theme.ts].

    The front end forwards every transfer request to the backend and keeps
    no task record of its own.  The scheduler and the task store, which
    live in the Rust crate, are modelled from the specification in the
    modules [Scheduler] and [TaskStore].

    The three classes are process-wide singletons; their private fields are
    the fields of one application state [App].  Every method is a
    computation in a small monad [M] that threads the application state,
    records the observable effects (console output, backend commands, DOM
    updates, callback invocations) and may complete by throwing.

    A backend command ([invoke] of the Tauri API) is asynchronous: the method
    suspends at its [await] and resumes with the backend's answer.  The
    managers' methods read and write the state only after their single
    [await], in one synchronous block, so each is a function of the state
    at resumption and of the backend's answer, which is a parameter.
    [handleDrop] reads the state before it starts [initiateTransfer], whose
    continuation works on the values it was called with; that continuation
    is an operation of its own in the transition system below. *)

From stdpp Require Import base option gmap strings list pretty.
From Stdlib Require Import ZArith.

Local Open Scope string_scope.
Local Open Scope list_scope.
Local Open Scope Z_scope.

(** ** JavaScript values *)

(** A [number].  The byte counts, ports and percentages the front end
    handles are produced by the backend; the code compares and forwards
    them and does no arithmetic on them, so they are integers here. *)
Abbreviation number := Z.

(** A [Date], as milliseconds since the epoch. *)
Abbreviation Date := Z.

(** [!s] for a string: the empty string is falsy. *)
Definition falsy (s : string) : bool := String.eqb s "".

(** [s.includes(sub)] *)
Fixpoint includes (s sub : string) : bool :=
  String.prefix sub s ||
  match s with
  | EmptyString => false
  | String _ s' => includes s' sub
  end.

(** ** Data model *)

Module SSHConfig.
Record t := Build {
  host : string;
  port : number;
  username : string;
  keyPath : option string;
  password : option string }.
End SSHConfig.

Module SSHConnection.
Record t := Build {
  id : string;
  host : string;
  port : number;
  username : string;
  connected : bool;
  lastActivity : Date }.
End SSHConnection.

Inductive Direction := windows_to_linux | linux_to_windows.

Inductive Status := pending | in_progress | completed | failed | cancelled.

Definition direction_string (d : Direction) : string :=
  match d with
  | windows_to_linux => "windows_to_linux"
  | linux_to_windows => "linux_to_windows"
  end.

Module TransferTask.
Record t := Build {
  id : string;
  sourcePath : string;
  destPath : string;
  direction : Direction;
  status : Status;
  totalBytes : number;
  transferredBytes : number;
  createdAt : Date;
  startedAt : option Date;
  completedAt : option Date;
  error : option string }.
End TransferTask.

Module TransferProgress.
Record t := Build {
  taskId : string;
  filename : string;
  direction : string;
  bytesTransferred : number;
  totalBytes : number;
  percentage : number;
  speedBytesPerSec : number;
  estimatedRemainingSecs : number }.
End TransferProgress.

Module DragDropData.
Record t := Build {
  sourcePane : string;
  destPane : string;
  sourcePath : string;
  destPath : string;
  filename : string;
  isDirectory : bool }.
End DragDropData.

(** A [.file-item] element as [extractDragData] reads it: the id of the
    pane it sits in ([getPaneId] of its closest [.pane]) and its [dataset].
    The handlers listen on the panes and the file lists put every file
    item inside a pane, so a file item that a [dragstart] reaches has a
    closest [.pane]. *)
Module FileItem.
Record t := Build {
  paneId : string;
  path : option string;
  filename : option string;
  isDirectory : option string }.
End FileItem.

(** A progress callback [(progress: TransferProgress) => void].  The only
    callback the application registers is the closure of
    [showTransferProgress] that updates the progress container of one
    task; [Observer] stands for any other subscriber. *)
Inductive callback :=
| UpdateContainer (taskId : string)
| Observer (n : nat).

(** Values passed to the console and to backend commands. *)
Inductive js_value :=
| JStr (s : string)
| JNum (n : number)
| JProgress (p : TransferProgress.t)
| JUndefined.

Definition js_opt (o : option string) : js_value :=
  match o with Some s => JStr s | None => JUndefined end.

(** ** Observable effects *)

Inductive effect :=
| ConsoleLog (msg : string) (args : list js_value)
| ConsoleError (msg : string) (args : list js_value)
| Invoke (cmd : string) (args : list (string * js_value))
| SetProgressBars (percentage : number)
| SetStatusBar (filename : string) (percentage : number)
| Call (cb : callback) (progress : TransferProgress.t)
| PreventDefault
| ClassAdd (element cls : string)
| ClassRemove (element cls : string)
| SetDragData (data : DragDropData.t)
| SetEffectAllowed (allowed : string)
| SetDropEffect (dropEffect : string)
| ShowTransferProgress (taskId filename : string)
| ShowError (message : string).

(** ** Application state *)

Record SSHStateManager := {
  connections : gmap string SSHConnection.t;
  currentConnection : option string }.

Record TransferQueueManager := {
  activeTransfers : gmap string TransferTask.t;
  progressCallbacks : gmap string callback }.

Record DragDropHandler := {
  dragData : option DragDropData.t;
  isDragging : bool }.

Record App := {
  sshStateManager : SSHStateManager;
  transferQueueManager : TransferQueueManager;
  dragDropHandler : DragDropHandler }.

(** The state after the three constructors have run. *)
Definition initial : App :=
  {| sshStateManager := {| connections := ∅; currentConnection := None |};
     transferQueueManager := {| activeTransfers := ∅; progressCallbacks := ∅ |};
     dragDropHandler := {| dragData := None; isDragging := false |} |}.

Definition with_ssh (f : SSHStateManager → SSHStateManager) (a : App) : App :=
  {| sshStateManager := f (sshStateManager a);
     transferQueueManager := transferQueueManager a;
     dragDropHandler := dragDropHandler a |}.

Definition with_queue (f : TransferQueueManager → TransferQueueManager) (a : App) : App :=
  {| sshStateManager := sshStateManager a;
     transferQueueManager := f (transferQueueManager a);
     dragDropHandler := dragDropHandler a |}.

Definition with_drag (f : DragDropHandler → DragDropHandler) (a : App) : App :=
  {| sshStateManager := sshStateManager a;
     transferQueueManager := transferQueueManager a;
     dragDropHandler := f (dragDropHandler a) |}.

(** ** The monad of methods *)

(** How a call completes: it returns a value, or throws (for an [async]
    method: its promise is rejected). *)
Inductive completion (A : Type) :=
| Returned (v : A)
| Thrown (err : string).
Arguments Returned {A} v.
Arguments Thrown {A} err.

Record outcome (A : Type) := Outcome {
  result : completion A;
  final : App;
  effects : list effect }.
Arguments Outcome {A} _ _ _.
Arguments result {A} _.
Arguments final {A} _.
Arguments effects {A} _.

Definition M (A : Type) : Type := App → outcome A.

Definition ret {A} (v : A) : M A := λ s, Outcome (Returned v) s [].

Definition bind {A B} (m : M A) (k : A → M B) : M B := λ s,
  let o := m s in
  match result o with
  | Returned v =>
      let o' := k v (final o) in
      Outcome (result o') (final o') (effects o ++ effects o')
  | Thrown e => Outcome (Thrown e) (final o) (effects o)
  end.

Definition throw {A} (e : string) : M A := λ s, Outcome (Thrown e) s [].

(** [try { m } catch (error) { h error }] *)
Definition try_catch {A} (m : M A) (h : string → M A) : M A := λ s,
  let o := m s in
  match result o with
  | Returned _ => o
  | Thrown e =>
      let o' := h e (final o) in
      Outcome (result o') (final o') (effects o ++ effects o')
  end.

Definition emit (e : effect) : M unit := λ s, Outcome (Returned tt) s [e].
Definition gets {A} (f : App → A) : M A := λ s, Outcome (Returned (f s)) s [].
Definition modify (f : App → App) : M unit := λ s, Outcome (Returned tt) (f s) [].

(** [await invoke<A>(cmd, args)]: the command is sent, and the call
    completes the way the backend answers. *)
Definition invoke {A} (cmd : string) (args : list (string * js_value))
    (reply : completion A) : M A :=
  λ s, Outcome reply s [Invoke cmd args].

#[global] Instance M_ret : MRet M := @ret.
#[global] Instance M_bind : MBind M := λ A B k m, bind m k.

(** ** [SSHStateManager] *)

(** The listener of ['ssh-connected']. *)
Definition on_ssh_connected (payload : string) : M unit :=
  emit (ConsoleLog "SSH connected:" [JStr payload]).

(** The listener of ['ssh-disconnected']. *)
Definition on_ssh_disconnected (connectionId : string) : M unit :=
  emit (ConsoleLog "SSH disconnected:" [JStr connectionId]);;
  modify (with_ssh (λ m,
    {| connections := delete connectionId (connections m);
       currentConnection :=
         if decide (currentConnection m = Some connectionId) then None
         else currentConnection m |})).

Definition connect (config : SSHConfig.t) (now : Date)
    (reply : completion string) : M string :=
  try_catch
    (connectionId ← invoke "connect_ssh"
        [("host", JStr (SSHConfig.host config));
         ("port", JNum (SSHConfig.port config));
         ("username", JStr (SSHConfig.username config));
         ("keyPath", js_opt (SSHConfig.keyPath config));
         ("password", js_opt (SSHConfig.password config))] reply;
     let connection :=
       {| SSHConnection.id := connectionId;
          SSHConnection.host := SSHConfig.host config;
          SSHConnection.port := SSHConfig.port config;
          SSHConnection.username := SSHConfig.username config;
          SSHConnection.connected := true;
          SSHConnection.lastActivity := now |} in
     modify (with_ssh (λ m,
       {| connections := <[connectionId := connection]> (connections m);
          currentConnection := Some connectionId |}));;
     mret connectionId)
    (λ error,
       emit (ConsoleError "Failed to connect to SSH:" [JStr error]);;
       throw error).

Definition disconnect (connectionId : string) (reply : completion unit) : M unit :=
  try_catch
    (invoke "disconnect_ssh" [("connectionId", JStr connectionId)] reply;;
     modify (with_ssh (λ m,
       {| connections := delete connectionId (connections m);
          currentConnection :=
            if decide (currentConnection m = Some connectionId) then None
            else currentConnection m |})))
    (λ error,
       emit (ConsoleError "Failed to disconnect SSH:" [JStr error]);;
       throw error).

Definition isConnected (connectionId : string) (reply : completion bool) : M bool :=
  try_catch
    (invoke "is_ssh_connected" [("connectionId", JStr connectionId)] reply)
    (λ error,
       emit (ConsoleError "Failed to check SSH connection:" [JStr error]);;
       mret false).

Definition listConnections (reply : completion (list string)) : M (list string) :=
  try_catch
    (invoke "list_ssh_connections" [] reply)
    (λ error,
       emit (ConsoleError "Failed to list SSH connections:" [JStr error]);;
       mret []).

Definition getCurrentConnection : M (option SSHConnection.t) :=
  cur ← gets (λ s, currentConnection (sshStateManager s));
  match cur with
  | None => mret None
  | Some id =>
      if falsy id then mret None
      else gets (λ s, connections (sshStateManager s) !! id)
  end.

Definition setCurrentConnection (connectionId : string) : M unit :=
  has ← gets (λ s, bool_decide (is_Some (connections (sshStateManager s) !! connectionId)));
  if has : bool then
    modify (with_ssh (λ m,
      {| connections := connections m; currentConnection := Some connectionId |}))
  else mret tt.

(** ** [TransferQueueManager] *)

Definition createTransferTask (sourcePath destPath : string) (direction : Direction)
    (reply : completion string) : M string :=
  try_catch
    (taskId ← invoke "create_transfer_task"
        [("sourcePath", JStr sourcePath);
         ("destPath", JStr destPath);
         ("direction", JStr (direction_string direction))] reply;
     (* The task will be created on the Rust side *)
     emit (ConsoleLog "Transfer task created:" [JStr taskId]);;
     mret taskId)
    (λ error,
       emit (ConsoleError "Failed to create transfer task:" [JStr error]);;
       throw error).

Definition getTransferProgress (taskId : string)
    (reply : completion (option TransferProgress.t)) : M (option TransferProgress.t) :=
  try_catch
    (invoke "get_transfer_progress" [("taskId", JStr taskId)] reply)
    (λ error,
       emit (ConsoleError "Failed to get transfer progress:" [JStr error]);;
       mret None).

Definition getActiveTransfers (reply : completion (list TransferTask.t))
    : M (list TransferTask.t) :=
  try_catch
    (invoke "get_active_transfers" [] reply)
    (λ error,
       emit (ConsoleError "Failed to get active transfers:" [JStr error]);;
       mret []).

Definition cancelTransfer (taskId : string) (reply : completion unit) : M unit :=
  try_catch
    (invoke "cancel_transfer" [("taskId", JStr taskId)] reply;;
     modify (with_queue (λ q,
       {| activeTransfers := delete taskId (activeTransfers q);
          progressCallbacks := progressCallbacks q |})))
    (λ error,
       emit (ConsoleError "Failed to cancel transfer:" [JStr error]);;
       throw error).

Definition retryTransfer (taskId : string) (reply : completion unit) : M unit :=
  try_catch
    (invoke "retry_transfer" [("taskId", JStr taskId)] reply)
    (λ error,
       emit (ConsoleError "Failed to retry transfer:" [JStr error]);;
       throw error).

Definition updateProgressUI (progress : TransferProgress.t) : M unit :=
  (* every [.transfer-progress] bar *)
  emit (SetProgressBars (TransferProgress.percentage progress));;
  (* the status bar *)
  emit (SetStatusBar (TransferProgress.filename progress)
                     (TransferProgress.percentage progress)).

Definition handleTransferProgress (progress : TransferProgress.t) : M unit :=
  emit (ConsoleLog "Transfer progress:" [JProgress progress]);;
  (* Update UI with progress *)
  updateProgressUI progress;;
  (* Call registered callbacks *)
  callback ← gets (λ s,
    progressCallbacks (transferQueueManager s) !! TransferProgress.taskId progress);
  match callback with
  | Some callback => emit (Call callback progress)
  | None => mret tt
  end.

Definition handleTransferCompleted (taskId : string) : M unit :=
  emit (ConsoleLog "Transfer completed:" [JStr taskId]);;
  modify (with_queue (λ q,
    {| activeTransfers := delete taskId (activeTransfers q);
       progressCallbacks := delete taskId (progressCallbacks q) |})).

Definition handleTransferFailed (taskId error : string) : M unit :=
  emit (ConsoleError "Transfer failed:" [JStr taskId; JStr error]);;
  modify (with_queue (λ q,
    {| activeTransfers := delete taskId (activeTransfers q);
       progressCallbacks := delete taskId (progressCallbacks q) |})).

Definition onProgress (taskId : string) (cb : callback) : M unit :=
  modify (with_queue (λ q,
    {| activeTransfers := activeTransfers q;
       progressCallbacks := <[taskId := cb]> (progressCallbacks q) |})).

Definition removeProgressCallback (taskId : string) : M unit :=
  modify (with_queue (λ q,
    {| activeTransfers := activeTransfers q;
       progressCallbacks := delete taskId (progressCallbacks q) |})).

(** [Util/constants.ts] *)
Definition MAX_CONCURRENT_TRANSFERS : nat := 3.

(** ** [DragDropHandler] *)

(** A DOM element, as far as the handler looks at it: the [id] of its
    closest [.pane], when it has one. *)
Definition element : Type := option string.

(** What [e.target] of a [dragstart] is: a text node, when the user drags
    a selection (a text node has no [closest]), or an element, with its
    closest [.file-item] when it has one. *)
Inductive node :=
| TextNode
| ElementNode (fileItem : option FileItem.t).

(** The [TypeError] the engine throws on a call of a method a value does
    not have and on an assignment to a property of [null]; the message is
    the engine's. *)
Definition TypeError : string := "TypeError".

Definition getPaneId (el : element) : string := default "" el.

Definition extractDragData (fileItem : FileItem.t) : option DragDropData.t :=
  let sourcePane := getPaneId (Some (FileItem.paneId fileItem)) in
  let sourcePath := default "" (FileItem.path fileItem) in
  let filename := default "" (FileItem.filename fileItem) in
  let isDirectory := bool_decide (FileItem.isDirectory fileItem = Some "true") in
  if falsy sourcePath || falsy filename then None
  else Some
    {| DragDropData.sourcePane := sourcePane;
       DragDropData.destPane := "";
       DragDropData.sourcePath := sourcePath;
       DragDropData.destPath := "";
       DragDropData.filename := filename;
       DragDropData.isDirectory := isDirectory |}.

Definition getTransferDirection (sourcePane destPane : string) : option Direction :=
  if includes sourcePane "windows" && includes destPane "linux" then
    Some windows_to_linux
  else if includes sourcePane "linux" && includes destPane "windows" then
    Some linux_to_windows
  else None.

Definition getDestinationPath (destPane filename : string) : option string :=
  if includes destPane "linux" then Some ("/home/user/" +:+ filename)
  else if includes destPane "windows" then Some ("C:\Users\User\" +:+ filename)
  else None.

Definition showTransferProgress (taskId filename : string) : M unit :=
  emit (ShowTransferProgress taskId filename);;
  (* Set up progress callback *)
  onProgress taskId (UpdateContainer taskId).

(** The notification removes itself after five seconds. *)
Definition showError (message : string) : M unit :=
  emit (ShowError message).

(** [target] is [e.target]; [dataTransfer] tells whether [e.dataTransfer]
    is there: it is for a drag the user makes, and it is null for a
    [DragEvent] a script makes without one.  [setData] is called through
    [?.]; the assignment to [effectAllowed] is not. *)
Definition handleDragStart (target : node) (dataTransfer : bool) : M unit :=
  match target with
  | TextNode => throw TypeError
  | ElementNode None => mret tt
  | ElementNode (Some fileItem) =>
      let data := extractDragData fileItem in
      modify (with_drag (λ _, {| dragData := data; isDragging := true |}));;
      match data with
      | Some d =>
          (if dataTransfer then emit (SetDragData d) else mret tt);;
          (if dataTransfer then emit (SetEffectAllowed "copy") else throw TypeError);;
          (* Add visual feedback *)
          emit (ClassAdd "file-item" "dragging")
      | None => mret tt
      end
  end.

Definition handleDragEnd : M unit :=
  modify (with_drag (λ _, {| dragData := None; isDragging := false |}));;
  emit (ClassRemove "file-item" "dragging").

(** The body of [initiateTransfer] runs in a continuation of its own:
    [handleDrop] does not wait for it.  [reply] is the backend's answer to
    [create_transfer_task]. *)
Definition initiateTransfer (data : DragDropData.t) (destPane : string)
    (direction : Direction) (reply : completion string) : M unit :=
  try_catch
    (match getDestinationPath destPane (DragDropData.filename data) with
     | Some destPath =>
         if falsy destPath then
           emit (ConsoleError "Could not determine destination path" [])
         else
           taskId ← createTransferTask (DragDropData.sourcePath data) destPath
                      direction reply;
           emit (ConsoleLog "Transfer initiated:" [JStr taskId]);;
           showTransferProgress taskId (DragDropData.filename data)
     | None => emit (ConsoleError "Could not determine destination path" [])
     end)
    (λ error,
       emit (ConsoleError "Failed to initiate transfer:" [JStr error]);;
       showError ("Transfer failed: " +:+ error)).

(** [target] is [e.currentTarget]. *)
Definition handleDrop (target : element) (reply : completion string) : M unit :=
  emit PreventDefault;;
  emit (ClassRemove (getPaneId target) "drag-over");;
  data ← gets (λ s, dragData (dragDropHandler s));
  match data with
  | None => mret tt
  | Some data =>
      let destPane := getPaneId target in
      let sourcePane := DragDropData.sourcePane data in
      (* Check if this is a valid drop (different panes) *)
      if decide (sourcePane = destPane) then
        emit (ConsoleLog "Cannot drop on same pane" [])
      else
        (* Determine transfer direction *)
        match getTransferDirection sourcePane destPane with
        | Some direction => initiateTransfer data destPane direction reply
        | None => mret tt
        end
  end.

(** [dataTransfer] tells whether [e.dataTransfer] is there. *)
Definition handleDragOver (dataTransfer : bool) : M unit :=
  emit PreventDefault;;
  if dataTransfer then emit (SetDropEffect "copy") else throw TypeError.

Definition handleDragEnter (target : element) : M unit :=
  emit PreventDefault;;
  emit (ClassAdd (getPaneId target) "drag-over").

Definition handleDragLeave (target : element) : M unit :=
  emit (ClassRemove (getPaneId target) "drag-over").

(** ** The application as a transition system *)

(** Everything that can happen to the three managers: a call of a public
    method, a backend event delivered to a listener, a DOM event delivered
    to the drag-and-drop handler.  A backend answer travels with the call
    it completes.  [Drop] is a drop whose transfer is answered before
    anything else happens; [InitiateTransfer] is the continuation of an
    earlier drop, resumed after other operations have run. *)
Inductive op :=
| SshConnected (payload : string)
| SshDisconnected (connectionId : string)
| Connect (config : SSHConfig.t) (now : Date) (reply : completion string)
| Disconnect (connectionId : string) (reply : completion unit)
| IsConnected (connectionId : string) (reply : completion bool)
| ListConnections (reply : completion (list string))
| GetCurrentConnection
| SetCurrentConnection (connectionId : string)
| CreateTransferTask (sourcePath destPath : string) (direction : Direction)
    (reply : completion string)
| GetTransferProgress (taskId : string) (reply : completion (option TransferProgress.t))
| GetActiveTransfers (reply : completion (list TransferTask.t))
| CancelTransfer (taskId : string) (reply : completion unit)
| RetryTransfer (taskId : string) (reply : completion unit)
| TransferProgressEvent (progress : TransferProgress.t)
| TransferCompleted (taskId : string)
| TransferFailed (taskId error : string)
| OnProgress (taskId : string) (cb : callback)
| RemoveProgressCallback (taskId : string)
| DragStart (target : node) (dataTransfer : bool)
| DragEnd
| DragOver (dataTransfer : bool)
| DragEnter (target : element)
| DragLeave (target : element)
| Drop (target : element) (reply : completion string)
| InitiateTransfer (data : DragDropData.t) (destPane : string)
    (direction : Direction) (reply : completion string).

(** The state and the effects an operation leaves behind. *)
Definition observe {A} (o : outcome A) : App * list effect := (final o, effects o).

Definition exec (o : op) (s : App) : App * list effect :=
  match o with
  | SshConnected payload => observe (on_ssh_connected payload s)
  | SshDisconnected id => observe (on_ssh_disconnected id s)
  | Connect config now reply => observe (connect config now reply s)
  | Disconnect id reply => observe (disconnect id reply s)
  | IsConnected id reply => observe (isConnected id reply s)
  | ListConnections reply => observe (listConnections reply s)
  | GetCurrentConnection => observe (getCurrentConnection s)
  | SetCurrentConnection id => observe (setCurrentConnection id s)
  | CreateTransferTask src dst dir reply => observe (createTransferTask src dst dir reply s)
  | GetTransferProgress id reply => observe (getTransferProgress id reply s)
  | GetActiveTransfers reply => observe (getActiveTransfers reply s)
  | CancelTransfer id reply => observe (cancelTransfer id reply s)
  | RetryTransfer id reply => observe (retryTransfer id reply s)
  | TransferProgressEvent progress => observe (handleTransferProgress progress s)
  | TransferCompleted id => observe (handleTransferCompleted id s)
  | TransferFailed id error => observe (handleTransferFailed id error s)
  | OnProgress id cb => observe (onProgress id cb s)
  | RemoveProgressCallback id => observe (removeProgressCallback id s)
  | DragStart target dataTransfer => observe (handleDragStart target dataTransfer s)
  | DragEnd => observe (handleDragEnd s)
  | DragOver dataTransfer => observe (handleDragOver dataTransfer s)
  | DragEnter target => observe (handleDragEnter target s)
  | DragLeave target => observe (handleDragLeave target s)
  | Drop target reply => observe (handleDrop target reply s)
  | InitiateTransfer data destPane direction reply =>
      observe (initiateTransfer data destPane direction reply s)
  end.

Definition step (o : op) (s : App) : App := (exec o s).1.

(** The operations run in sequence, each to completion. *)
Fixpoint run (ops : list op) (s : App) : App :=
  match ops with
  | [] => s
  | o :: ops => run ops (step o s)
  end.

(** The backend commands among the effects of a call. *)
Definition backend_calls (es : list effect) : list string :=
  omap (λ e, match e with Invoke cmd _ => Some cmd | _ => None end) es.

(** The callback invocations among the effects of a call. *)
Definition callback_calls (es : list effect) : list (callback * TransferProgress.t) :=
  omap (λ e, match e with Call cb p => Some (cb, p) | _ => None end) es.

Definition is_terminal (st : Status) : bool :=
  match st with
  | completed | failed | cancelled => true
  | pending | in_progress => false
  end.

(** The registry holds a live connection under [id]. *)
Definition live (s : App) (id : string) : Prop :=
  ∃ c, connections (sshStateManager s) !! id = Some c ∧ SSHConnection.connected c = true.

(** ** Views of the state *)

Abbreviation registry s := (connections (sshStateManager s)).
Abbreviation current s := (currentConnection (sshStateManager s)).
Abbreviation tasks s := (activeTransfers (transferQueueManager s)).
Abbreviation observers s := (progressCallbacks (transferQueueManager s)).

(** The current-connection pointer is null or names a stored record. *)
Definition pointer_valid (s : App) : Prop :=
  ∀ id, currentConnection (sshStateManager s) = Some id →
        is_Some (connections (sshStateManager s) !! id).

(** The record [connect] stores for the identifier the backend returned. *)
Definition connection_of (config : SSHConfig.t) (now : Date) (id : string)
    : SSHConnection.t :=
  {| SSHConnection.id := id;
     SSHConnection.host := SSHConfig.host config;
     SSHConnection.port := SSHConfig.port config;
     SSHConnection.username := SSHConfig.username config;
     SSHConnection.connected := true;
     SSHConnection.lastActivity := now |}.

(** ** Scenarios *)

Definition example_config : SSHConfig.t :=
  {| SSHConfig.host := "build-box";
     SSHConfig.port := 22;
     SSHConfig.username := "dev";
     SSHConfig.keyPath := None;
     SSHConfig.password := Some "secret" |}.

(** One successful [connect]. *)
Definition one_connection : App :=
  final (connect example_config 0 (Returned "conn-1") initial).

Definition example_sample (id : string) (transferred : number)
    : TransferProgress.t :=
  {| TransferProgress.taskId := id;
     TransferProgress.filename := "a.bin";
     TransferProgress.direction := "windows_to_linux";
     TransferProgress.bytesTransferred := transferred;
     TransferProgress.totalBytes := 1000;
     TransferProgress.percentage := transferred / 10;
     TransferProgress.speedBytesPerSec := 100;
     TransferProgress.estimatedRemainingSecs := (1000 - transferred) / 100 |}.

(** Observer 1 has subscribed to task [T]. *)
Definition subscribed : App :=
  step (OnProgress "T" (Observer 1)) initial.

(** A drag-and-drop gesture of the user: [dragstart] on a file item, with
    the [DataTransfer] the browser gives a drag, then [drop] on a target
    element. *)
Definition gesture (fileItem : FileItem.t) (target : element)
    (reply : completion string) : M unit :=
  handleDragStart (ElementNode (Some fileItem)) true;;
  handleDrop target reply.

(** The typed rejection of the specification: the caller is handed an
    error of the kind named.  [handleDrop] returns [void], so an error can
    reach its caller only by being thrown. *)
Definition rejected_with {A} (kind : string) (o : outcome A) : Prop :=
  result o = Thrown kind.

Definition example_file (pane : string) (path filename : option string)
    : FileItem.t :=
  {| FileItem.paneId := pane;
     FileItem.path := path;
     FileItem.filename := filename;
     FileItem.isDirectory := Some "false" |}.

(** ** The transfer scheduler of the backend

    [createTransferTask] hands every request to the backend command
    [create_transfer_task] ("The task will be created on the Rust side");
    admission, the wait queue and promotion live in the Rust crate
    [src-tauri], whose sources are not part of this development.  The
    front end declares the ceiling, [MAX_CONCURRENT_TRANSFERS], and never
    reads it.  The scheduler below follows the specification's section on
    the transfer scheduler. *)

Module Scheduler.

(** Modelled from the spec: the transfer request the absent scheduler
    consumes: the source and the destination connection identifier
    ([None] is the "local" sentinel), the source path, the destination
    path and the direction. *)
Record Request := {
  source : option string;
  destination : option string;
  sourcePath : string;
  destPath : string;
  direction : Direction }.

(** Modelled from the spec: the task record of the absent scheduler; a
    task's identifier is its index in the task store, generated at creation
    and never reused. *)
Record task := Task {
  request : Request;
  status : Status;
  error : option string }.

(** Modelled from the spec: the calls the absent scheduler issues to the
    transfer backend. *)
Inductive call :=
| StartTransfer (id : nat)
| CancelTransfer (id : nat).

(** Modelled from the spec: what the absent scheduler reacts to: a new
    request, the backend's terminal events (a failure to start a task
    arrives as [Failed]), and the user's cancel and retry. *)
Inductive event :=
| Submit (r : Request)
| Completed (id : nat)
| Failed (id : nat) (message : string)
| Cancel (id : nat)
| Retry (id : nat).

(** Modelled from the spec: the state of the absent scheduler: the
    concurrency ceiling, the task store and the FIFO wait queue. *)
Record t := {
  ceiling : nat;
  tasks : list task;
  queue : list nat }.

(** Modelled from the spec: the absent scheduler before any request. *)
Definition init (N : nat) : t :=
  {| ceiling := N; tasks := []; queue := [] |}.

(** Modelled from the spec: a status transition of one task of the absent
    scheduler. *)
Definition set_status (st : Status) (e : option string) (k : task) : task :=
  {| request := request k; status := st; error := e |}.

(** Modelled from the spec: the status of a task of the absent scheduler. *)
Definition status_of (s : t) (id : nat) : option Status :=
  status <$> tasks s !! id.

(** Modelled from the spec: the tasks of the absent scheduler that are in
    progress. *)
Definition is_running (k : task) : bool :=
  match status k with in_progress => true | _ => false end.

(** Modelled from the spec: the number of tasks of the absent scheduler
    that hold status in-progress. *)
Definition running (s : t) : nat :=
  length (filter (λ k, is_running k = true) (tasks s)).

(** Modelled from the spec: admission by the absent scheduler.  A new
    task is started at once while fewer than [ceiling] tasks are in
    progress; beyond the ceiling it is held, pending, at the tail of the
    wait queue. *)
Definition submit (r : Request) (s : t) : t * list call :=
  let id := length (tasks s) in
  if decide (running s < ceiling s)%nat then
    ({| ceiling := ceiling s;
        tasks := tasks s ++ [Task r in_progress None];
        queue := queue s |},
     [StartTransfer id])
  else
    ({| ceiling := ceiling s;
        tasks := tasks s ++ [Task r pending None];
        queue := queue s ++ [id] |},
     []).

(** Modelled from the spec: promotion by the absent scheduler: the head of
    the wait queue, if any, becomes in-progress and the backend is asked to
    start it. *)
Definition promote (s : t) : t * list call :=
  match queue s with
  | [] => (s, [])
  | h :: rest =>
      ({| ceiling := ceiling s;
          tasks := alter (set_status in_progress None) h (tasks s);
          queue := rest |},
       [StartTransfer h])
  end.

(** Modelled from the spec: a terminal outcome in the absent scheduler.
    An in-progress task takes the terminal status and the queue head is
    promoted in the same step; an outcome for a task that is not in
    progress is a late event and is ignored. *)
Definition finish (id : nat) (st : Status) (e : option string) (s : t)
    : t * list call :=
  match status_of s id with
  | Some in_progress =>
      promote {| ceiling := ceiling s;
                 tasks := alter (set_status st e) id (tasks s);
                 queue := queue s |}
  | _ => (s, [])
  end.

(** Modelled from the spec: one step of the absent scheduler.  Cancelling
    a pending task removes it from the wait queue without a backend call;
    cancelling an in-progress task issues a cancel to the backend and marks
    the task cancelled at once (fire-and-forget).  Retry is valid only on a
    failed task: its request re-enters admission as a new task and the
    failed record is kept. *)
Definition step (ev : event) (s : t) : t * list call :=
  match ev with
  | Submit r => submit r s
  | Completed id => finish id completed None s
  | Failed id message => finish id failed (Some message) s
  | Cancel id =>
      match status_of s id with
      | Some pending =>
          ({| ceiling := ceiling s;
              tasks := alter (set_status cancelled None) id (tasks s);
              queue := filter (λ i, i ≠ id) (queue s) |},
           [])
      | Some in_progress =>
          let r := finish id cancelled None s in
          (r.1, CancelTransfer id :: r.2)
      | _ => (s, [])
      end
  | Retry id =>
      match tasks s !! id with
      | Some k =>
          match status k with
          | failed => submit (request k) s
          | _ => (s, [])
          end
      | None => (s, [])
      end
  end.

(** Modelled from the spec: the absent scheduler run on a sequence of
    events, one synchronous step each. *)
Fixpoint run (evs : list event) (s : t) : t :=
  match evs with
  | [] => s
  | ev :: evs => run evs (step ev s).1
  end.

(** Modelled from the spec: the task an event brings to a terminal state
    in the absent scheduler, if the task is in progress. *)
Definition terminates (ev : event) : option nat :=
  match ev with
  | Completed id | Failed id _ | Cancel id => Some id
  | Submit _ | Retry _ => None
  end.

(** Modelled from the spec: the wait queue of the absent scheduler holds
    pending tasks, each once. *)
Definition queue_wf (s : t) : Prop :=
  NoDup (queue s) ∧ Forall (λ i, status_of s i = Some pending) (queue s).

(** Modelled from the spec: the invariant of the absent scheduler: the
    ceiling bounds the tasks in progress, and the wait queue is well
    formed. *)
Definition invariant (s : t) : Prop :=
  (running s ≤ ceiling s)%nat ∧ queue_wf s.

(** Modelled from the spec: a request for the scenarios of the absent
    scheduler, from the local side to connection [conn-1]. *)
Definition example_request (name : string) : Request :=
  {| source := None;
     destination := Some "conn-1";
     sourcePath := "C:\data\" +:+ name;
     destPath := "/home/user/" +:+ name;
     direction := windows_to_linux |}.


End Scheduler.

(** ** The task store of the backend

    The front end never writes a task record (its map [activeTransfers]
    is only deleted from) and [handleTransferProgress] only displays a
    sample: the records, with their status and their byte counts, are kept
    by the Rust crate, which reports them through [get_transfer_progress]
    and [get_active_transfers].  The store below follows the
    specification's sections on the data model, the progress broadcaster
    and the session registry; it keeps the byte counts beside the
    scheduler's task records. *)

Module TaskStore.

(** Modelled from the spec: the progress sample the absent task store
    receives, with the task's current byte position. *)
Record ProgressSample := {
  taskId : nat;
  bytesTransferred : number }.

(** Modelled from the spec: the state of the absent task store: the
    scheduler with the task records, and the transferred byte count
    recorded for each task (none recorded is a count of zero). *)
Record t := {
  scheduler : Scheduler.t;
  counts : gmap nat number }.

(** Modelled from the spec: the absent task store before any request. *)
Definition init (N : nat) : t :=
  {| scheduler := Scheduler.init N; counts := ∅ |}.

(** Modelled from the spec: the transferred byte count the absent task
    store has recorded for a task. *)
Definition transferred (c : t) (id : nat) : number :=
  default 0 (counts c !! id).


(** Modelled from the spec: the status the absent task store holds for a
    task. *)
Definition status_of (c : t) (id : nat) : option Status :=
  Scheduler.status_of (scheduler c) id.

(** Modelled from the spec: [onProgressSample] of the absent broadcaster.
    The sample updates the task's transferred byte count; a sample that
    reports a lower count than the recorded one is spurious and ignored,
    and no sample is applied to a task in a terminal state (late events
    are ignored). *)
Definition onProgressSample (p : ProgressSample) (c : t) : t :=
  match status_of c (taskId p) with
  | Some st =>
      if is_terminal st then c
      else if decide (bytesTransferred p < transferred c (taskId p)) then c
      else {| scheduler := scheduler c;
              counts := <[taskId p := bytesTransferred p]> (counts c) |}
  | None => c
  end.

(** Modelled from the spec: the error kind of a task of the absent task
    store whose connection went dead. *)
Definition ConnectionLost : string := "ConnectionLost".

(** Modelled from the spec: a task of the absent task store references
    the connections its request names. *)
Definition references (X : string) (k : Scheduler.task) : bool :=
  bool_decide (Scheduler.source (Scheduler.request k) = Some X ∨
               Scheduler.destination (Scheduler.request k) = Some X).


(** Modelled from the spec: a task of the absent task store loses its
    connection.  A pending task fails and leaves the wait queue; a task in
    progress fails, which is a terminal outcome to the scheduler (the head
    of the queue is promoted); a task in a terminal state is left as it
    is. *)
Definition lose (id : nat) (s : Scheduler.t) : Scheduler.t * list Scheduler.call :=
  match Scheduler.status_of s id with
  | Some pending =>
      ({| Scheduler.ceiling := Scheduler.ceiling s;
          Scheduler.tasks :=
            alter (Scheduler.set_status failed (Some ConnectionLost)) id
              (Scheduler.tasks s);
          Scheduler.queue := filter (λ i, i ≠ id) (Scheduler.queue s) |},
       [])
  | Some in_progress => Scheduler.finish id failed (Some ConnectionLost) s
  | _ => (s, [])
  end.

(** Modelled from the spec: the tasks of a list lose their connection, one
    after the other. *)
Fixpoint lose_all (ids : list nat) (s : Scheduler.t)
    : Scheduler.t * list Scheduler.call :=
  match ids with
  | [] => (s, [])
  | id :: ids =>
      let r := lose id s in
      let r' := lose_all ids r.1 in
      (r'.1, r.2 ++ r'.2)
  end.

(** Modelled from the spec: the tasks of the absent task store that
    reference a connection and are in progress ([running]) or pending. *)
Definition owned (X : string) (running : bool) (s : Scheduler.t) : list nat :=
  filter (λ i, match Scheduler.tasks s !! i with
               | Some k =>
                   references X k &&
                   match Scheduler.status k with
                   | pending => negb running
                   | in_progress => running
                   | _ => false
                   end
               | None => false
               end = true)
    (seq 0 (length (Scheduler.tasks s))).

(** Modelled from the spec: the backend's [connection-lost] notification
    in the absent task store: every task that references the connection
    and is pending or in progress fails with [ConnectionLost], the pending
    ones first. *)
Definition connection_lost (X : string) (s : Scheduler.t)
    : Scheduler.t * list Scheduler.call :=
  lose_all (owned X false s ++ owned X true s) s.

(** Modelled from the spec: what the absent task store reacts to: the
    events of the scheduler (a request, a terminal outcome, cancel and
    retry), a progress sample, and the loss of a connection. *)
Inductive event :=
| Schedule (ev : Scheduler.event)
| Progress (p : ProgressSample)
| ConnectionLostEvent (X : string).

(** Modelled from the spec: one step of the absent task store, with the
    calls issued to the transfer backend. *)
Definition step (ev : event) (c : t) : t * list Scheduler.call :=
  match ev with
  | Schedule ev =>
      let r := Scheduler.step ev (scheduler c) in
      ({| scheduler := r.1; counts := counts c |}, r.2)
  | Progress p => (onProgressSample p c, [])
  | ConnectionLostEvent X =>
      let r := connection_lost X (scheduler c) in
      ({| scheduler := r.1; counts := counts c |}, r.2)
  end.

(** Modelled from the spec: the absent task store run on a sequence of
    events. *)
Fixpoint run (evs : list event) (c : t) : t :=
  match evs with
  | [] => c
  | ev :: evs => run evs (step ev c).1
  end.

(** Modelled from the spec: a request for the scenarios of the absent
    task store, from a connection to the local side. *)
Definition download (connection name : string) : Scheduler.Request :=
  {| Scheduler.source := Some connection;
     Scheduler.destination := None;
     Scheduler.sourcePath := "/home/user/" +:+ name;
     Scheduler.destPath := "C:\data\" +:+ name;
     Scheduler.direction := linux_to_windows |}.


End TaskStore.

(** ** Completion of operations *)

(** The error a call throws, if it throws. *)
Definition thrown {A} (o : outcome A) : option string :=
  match result o with
  | Thrown e => Some e
  | Returned _ => None
  end.

(** The error an operation of the transition system throws, if any. *)
Definition failure (o : op) (s : App) : option string :=
  match o with
  | SshConnected payload => thrown (on_ssh_connected payload s)
  | SshDisconnected id => thrown (on_ssh_disconnected id s)
  | Connect config now reply => thrown (connect config now reply s)
  | Disconnect id reply => thrown (disconnect id reply s)
  | IsConnected id reply => thrown (isConnected id reply s)
  | ListConnections reply => thrown (listConnections reply s)
  | GetCurrentConnection => thrown (getCurrentConnection s)
  | SetCurrentConnection id => thrown (setCurrentConnection id s)
  | CreateTransferTask src dst dir reply => thrown (createTransferTask src dst dir reply s)
  | GetTransferProgress id reply => thrown (getTransferProgress id reply s)
  | GetActiveTransfers reply => thrown (getActiveTransfers reply s)
  | CancelTransfer id reply => thrown (cancelTransfer id reply s)
  | RetryTransfer id reply => thrown (retryTransfer id reply s)
  | TransferProgressEvent progress => thrown (handleTransferProgress progress s)
  | TransferCompleted id => thrown (handleTransferCompleted id s)
  | TransferFailed id error => thrown (handleTransferFailed id error s)
  | OnProgress id cb => thrown (onProgress id cb s)
  | RemoveProgressCallback id => thrown (removeProgressCallback id s)
  | DragStart target dataTransfer => thrown (handleDragStart target dataTransfer s)
  | DragEnd => thrown (handleDragEnd s)
  | DragOver dataTransfer => thrown (handleDragOver dataTransfer s)
  | DragEnter target => thrown (handleDragEnter target s)
  | DragLeave target => thrown (handleDragLeave target s)
  | Drop target reply => thrown (handleDrop target reply s)
  | InitiateTransfer data destPane direction reply =>
      thrown (initiateTransfer data destPane direction reply s)
  end.

(** The public methods of the two managers, among the operations. *)
Definition is_method (o : op) : bool :=
  match o with
  | Connect _ _ _ | Disconnect _ _ | IsConnected _ _ | ListConnections _
  | GetCurrentConnection | SetCurrentConnection _
  | CreateTransferTask _ _ _ _ | GetTransferProgress _ _ | GetActiveTransfers _
  | CancelTransfer _ _ | RetryTransfer _ _
  | OnProgress _ _ | RemoveProgressCallback _ => true
  | _ => false
  end.

(** The backend's rejection carried by an operation that forwards it to
    its caller: [connect], [disconnect], [createTransferTask],
    [cancelTransfer] and [retryTransfer] rethrow in their [catch] block. *)
Definition rejection (o : op) : option string :=
  match o with
  | Connect _ _ (Thrown e)
  | Disconnect _ (Thrown e)
  | CreateTransferTask _ _ _ (Thrown e)
  | CancelTransfer _ (Thrown e)
  | RetryTransfer _ (Thrown e) => Some e
  | _ => None
  end.

(** The backend commands, with their arguments, among the effects of a
    call. *)
Definition invocations (es : list effect) : list effect :=
  omap (λ e, match e with Invoke _ _ => Some e | _ => None end) es.

(** The console errors among the effects of a call. *)
Definition console_errors (es : list effect) : list string :=
  omap (λ e, match e with ConsoleError msg _ => Some msg | _ => None end) es.

(** Pane identifiers that name one side only. *)
Definition windows_side (pane : string) : Prop :=
  includes pane "windows" = true ∧ includes pane "linux" = false.

Definition linux_side (pane : string) : Prop :=
  includes pane "linux" = true ∧ includes pane "windows" = false.

(** ** [Resizer] ([Components/Layout/resizer.ts])

    The resizer listens on the document for [mousemove] and [mouseup]
    while a resize is under way.  A listener is a function object:
    [addEventListener] appends it unless that very object is registered
    already, [removeEventListener] removes that very object, and every call
    of [Function.prototype.bind] makes a new object.  Function objects are
    numbered in the order [bind] creates them.  Mouse coordinates and
    element sizes are whole pixels. *)

Module Resizer.

Record MouseEvent := {
  clientX : number;
  clientY : number;
  (** [offsetWidth] and [offsetHeight] of [target.closest('.pane')] *)
  container : option (number * number) }.

(** The fields of the class, the listeners registered on the document (in
    registration order; each a bound [handleMouseMove] or [handleMouseUp]
    of this resizer), and the number of functions bound so far. *)
Record t := {
  isResizing : bool;
  startX : number;
  startY : number;
  startWidth : number;
  startHeight : number;
  mousemove : list nat;
  mouseup : list nat;
  bound : nat }.

(** What the page sees of the resizer: [console.log('Resizing:', deltaX,
    deltaY)] and [e.preventDefault()]. *)
Inductive log :=
| Resizing (deltaX deltaY : number)
| DefaultPrevented.

Definition init : t :=
  {| isResizing := false; startX := 0; startY := 0;
     startWidth := 0; startHeight := 0;
     mousemove := []; mouseup := []; bound := 0 |}.

(** [document.addEventListener(type, f)] on the list of a type. *)
Definition addEventListener (f : nat) (listeners : list nat) : list nat :=
  if decide (f ∈ listeners) then listeners else listeners ++ [f].

(** [document.removeEventListener(type, f)] on the list of a type. *)
Definition removeEventListener (f : nat) (listeners : list nat) : list nat :=
  filter (λ g, g ≠ f) listeners.

Definition startResize (e : MouseEvent) (r : t) : t * list log :=
  let size := default (startWidth r, startHeight r) (container e) in
  (* this.handleMouseMove.bind(this), this.handleMouseUp.bind(this) *)
  let move := bound r in
  let up := S (bound r) in
  ({| isResizing := true;
      startX := clientX e;
      startY := clientY e;
      startWidth := size.1;
      startHeight := size.2;
      mousemove := addEventListener move (mousemove r);
      mouseup := addEventListener up (mouseup r);
      bound := S (S (bound r)) |},
   [DefaultPrevented]).

Definition handleMouseMove (e : MouseEvent) (r : t) : list log :=
  if isResizing r then
    let deltaX := clientX e - startX r in
    let deltaY := clientY e - startY r in
    (* Handle resize logic here *)
    [Resizing deltaX deltaY]
  else [].

Definition handleMouseUp (r : t) : t :=
  let move := bound r in
  let up := S (bound r) in
  {| isResizing := false;
     startX := startX r;
     startY := startY r;
     startWidth := startWidth r;
     startHeight := startHeight r;
     mousemove := removeEventListener move (mousemove r);
     mouseup := removeEventListener up (mouseup r);
     bound := S (S (bound r)) |}.

(** What the user does: presses the mouse on a resizer, moves it, releases
    it. *)
Inductive event :=
| MouseDown (e : MouseEvent)
| MouseMove (e : MouseEvent)
| MouseUp.

(** The document dispatches [mouseup] to the listeners registered when the
    dispatch starts, in order, skipping one that has been removed in the
    meantime. *)
Fixpoint dispatch_mouseup (snapshot : list nat) (r : t) : t :=
  match snapshot with
  | [] => r
  | f :: snapshot =>
      dispatch_mouseup snapshot
        (if decide (f ∈ mouseup r) then handleMouseUp r else r)
  end.

(** The document dispatches [mousemove] to every registered listener;
    [handleMouseMove] changes nothing. *)
Definition dispatch_mousemove (e : MouseEvent) (r : t) : list log :=
  mjoin ((λ _, handleMouseMove e r) <$> mousemove r).

Definition step (ev : event) (r : t) : t * list log :=
  match ev with
  | MouseDown e => startResize e r
  | MouseMove e => (r, dispatch_mousemove e r)
  | MouseUp => (dispatch_mouseup (mouseup r) r, [])
  end.

Fixpoint run (evs : list event) (r : t) : t :=
  match evs with
  | [] => r
  | ev :: evs => run evs (step ev r).1
  end.

(** The number of resizes started. *)
Definition presses (evs : list event) : nat :=
  length (filter (λ ev, match ev with MouseDown _ => true | _ => false end = true) evs).

(** Every registered listener was bound before now. *)
Definition listeners_known (r : t) : Prop :=
  Forall (λ f, (f < bound r)%nat) (mousemove r) ∧
  Forall (λ f, (f < bound r)%nat) (mouseup r).

Definition example_event (x y : number) : MouseEvent :=
  {| clientX := x; clientY := y; container := Some (300, 200) |}.

End Resizer.

(** ** [ConnectionPanel.formatTimeAgo] ([Components/Connection/ConnectionPanel.ts])

    [now] is the [new Date()] the method takes.  Dates are whole
    milliseconds; [Math.floor] of a quotient by a positive constant is
    integer division rounding down. *)
Definition formatTimeAgo (now date : Date) : string :=
  let diffMs := now - date in
  let diffMins := diffMs `div` (1000 * 60) in
  if decide (diffMins < 1) then "just now"
  else if decide (diffMins < 60) then pretty diffMins +:+ " minutes ago"
  else
    let diffHours := diffMins `div` 60 in
    if decide (diffHours < 24) then pretty diffHours +:+ " hours ago"
    else
      let diffDays := diffHours `div` 24 in
      pretty diffDays +:+ " days ago".

(** ** The callers of the managers

    [Service/storage.ts], the SSH configuration dialog
    ([SSHConfigManager]) and the status bar's transfer count call the
    managers above.  Their own
    state and their writes to the page are added to the state and to the
    effects of the managers.  A write to an element of the page takes
    effect when the element exists. *)

Module SSHConfigForm.
Record t := Build {
  host : string;
  port : number;
  username : string;
  keyPath : option string;
  password : option string;
  useKeyAuth : bool }.
End SSHConfigForm.

(** The fields of [SSHConfigManager] (the modal it builds is part of the
    page). *)
Module SSHConfigManager.
Record t := Build {
  isConnected : bool;
  currentConnectionId : option string }.
End SSHConfigManager.

(** A value handed to [Storage.set]. *)
Inductive storage_value :=
| StoredConfig (config : SSHConfigForm.t).

Inductive ui_effect :=
| Core (e : effect)
| SetStorage (key : string) (value : storage_value)
| SetTextContent (id text : string)
| SetClassName (id cls : string)
| Notification (message kind : string)
| HideConfigModal.

Record Shell := {
  app : App;
  sshConfigManager : SSHConfigManager.t }.

Definition shell_initial : Shell :=
  {| app := initial;
     sshConfigManager :=
       {| SSHConfigManager.isConnected := false;
          SSHConfigManager.currentConnectionId := None |} |}.

Record ui_outcome (A : Type) := UiOutcome {
  ui_result : completion A;
  ui_final : Shell;
  ui_effects : list ui_effect }.
Arguments UiOutcome {A} _ _ _.
Arguments ui_result {A} _.
Arguments ui_final {A} _.
Arguments ui_effects {A} _.

Definition UI (A : Type) : Type := Shell → ui_outcome A.

Definition ui_ret {A} (v : A) : UI A := λ s, UiOutcome (Returned v) s [].

Definition ui_bind {A B} (m : UI A) (k : A → UI B) : UI B := λ s,
  let o := m s in
  match ui_result o with
  | Returned v =>
      let o' := k v (ui_final o) in
      UiOutcome (ui_result o') (ui_final o') (ui_effects o ++ ui_effects o')
  | Thrown e => UiOutcome (Thrown e) (ui_final o) (ui_effects o)
  end.

(** [try { m } catch (error) { h error }] *)
Definition ui_try {A} (m : UI A) (h : string → UI A) : UI A := λ s,
  let o := m s in
  match ui_result o with
  | Returned _ => o
  | Thrown e =>
      let o' := h e (ui_final o) in
      UiOutcome (ui_result o') (ui_final o') (ui_effects o ++ ui_effects o')
  end.

Definition ui_emit (e : ui_effect) : UI unit := λ s, UiOutcome (Returned tt) s [e].

Definition ui_gets {A} (f : Shell → A) : UI A := λ s, UiOutcome (Returned (f s)) s [].

Definition ui_modify (f : Shell → Shell) : UI unit := λ s, UiOutcome (Returned tt) (f s) [].

(** A method of the managers, called from a caller. *)
Definition lift {A} (m : M A) : UI A := λ s,
  let o := m (app s) in
  UiOutcome (result o)
    {| app := final o; sshConfigManager := sshConfigManager s |}
    (Core <$> effects o).

#[global] Instance UI_ret : MRet UI := @ui_ret.
#[global] Instance UI_bind : MBind UI := λ A B k m, ui_bind m k.

(** *** [Storage] ([Service/storage.ts])

    The backend holds the store.  [get] returns [any]; a caller takes the
    value at the shape it expects, and [None] is [null]. *)
Module Storage.

Definition get {A} (key : string) (forceReload : bool)
    (reply : completion (option A)) : UI (option A) :=
  ui_try
    (lift (invoke "get_storage" [("key", JStr key)] reply))
    (λ error,
       ui_emit (Core (ConsoleError ("Failed to get storage key " +:+ key +:+ ":")
                        [JStr error]));;
       mret None).

Definition set (key : string) (value : storage_value) (reply : completion unit)
    : UI unit :=
  ui_try
    (λ s, UiOutcome reply s [SetStorage key value])
    (λ error,
       ui_emit (Core (ConsoleError ("Failed to set storage key " +:+ key +:+ ":")
                        [JStr error]))).

Definition remove (key : string) (reply : completion unit) : UI unit :=
  ui_try
    (lift (invoke "remove_storage" [("key", JStr key)] reply))
    (λ error,
       ui_emit (Core (ConsoleError ("Failed to remove storage key " +:+ key +:+ ":")
                        [JStr error]))).

Definition clear (reply : completion unit) : UI unit :=
  ui_try
    (lift (invoke "clear_storage" [] reply))
    (λ error,
       ui_emit (Core (ConsoleError "Failed to clear storage:" [JStr error]))).

Definition keys (reply : completion (list string)) : UI (list string) :=
  ui_try
    (lift (invoke "get_storage_keys" [] reply))
    (λ error,
       ui_emit (Core (ConsoleError "Failed to get storage keys:" [JStr error]));;
       mret []).

Definition has (key : string) (reply : completion bool) : UI bool :=
  ui_try
    (lift (invoke "has_storage_key" [("key", JStr key)] reply))
    (λ error,
       ui_emit (Core (ConsoleError ("Failed to check storage key " +:+ key +:+ ":")
                        [JStr error]));;
       mret false).

End Storage.

(** *** [SSHConfigManager] *)

Definition updateConnectionStatus (connected : bool) : UI unit :=
  ui_emit (SetTextContent "ssh-status"
             (if connected then "Connected" else "Disconnected"));;
  ui_emit (SetClassName "ssh-status"
             (if connected then "status-connected" else "status-disconnected")).

(** The notification removes itself after three seconds. *)
Definition showNotification (message kind : string) : UI unit :=
  ui_emit (Notification message kind).

Definition hideConfigModal : UI unit := ui_emit HideConfigModal.

(** The [SSHConfig] that [SSHConfigManager.connect] builds from the form. *)
Definition ssh_config_of (config : SSHConfigForm.t) : SSHConfig.t :=
  {| SSHConfig.host := SSHConfigForm.host config;
     SSHConfig.port := SSHConfigForm.port config;
     SSHConfig.username := SSHConfigForm.username config;
     SSHConfig.keyPath := SSHConfigForm.keyPath config;
     SSHConfig.password := SSHConfigForm.password config |}.

(** [SSHConfigManager.connect]: [now] and [connected] are the time and the
    backend's answer for [sshStateManager.connect], [saved] the backend's
    answer to [Storage.set]. *)
Definition config_connect (config : SSHConfigForm.t) (now : Date)
    (connected : completion string) (saved : completion unit) : UI unit :=
  connectionId ← lift (connect (ssh_config_of config) now connected);
  ui_modify (λ s,
    {| app := app s;
       sshConfigManager :=
         {| SSHConfigManager.isConnected := true;
            SSHConfigManager.currentConnectionId := Some connectionId |} |});;
  (* Save config to storage *)
  Storage.set "ssh_config" (StoredConfig config) saved;;
  (* Update UI *)
  updateConnectionStatus true;;
  showNotification "Connected to SSH server" "success".

(** [handleFormSubmit], from the [SSHConfigForm] it has read off the form. *)
Definition handleFormSubmit (config : SSHConfigForm.t) (now : Date)
    (connected : completion string) (saved : completion unit) : UI unit :=
  ui_emit (Core PreventDefault);;
  ui_try
    (config_connect config now connected saved;;
     hideConfigModal)
    (λ error, showNotification ("Connection failed: " +:+ error) "error").

(** [SSHConfigManager.disconnect] *)
Definition config_disconnect (reply : completion unit) : UI unit :=
  id ← ui_gets (λ s, SSHConfigManager.currentConnectionId (sshConfigManager s));
  match id with
  | None => mret tt
  | Some id =>
      if falsy id then mret tt
      else
        lift (disconnect id reply);;
        ui_modify (λ s,
          {| app := app s;
             sshConfigManager :=
               {| SSHConfigManager.isConnected := false;
                  SSHConfigManager.currentConnectionId := None |} |});;
        updateConnectionStatus false
  end.

Definition isSSHConnected : UI bool :=
  ui_gets (λ s, SSHConfigManager.isConnected (sshConfigManager s)).

(** *** [StatusBar.updateFileCount] *)

Definition updateFileCount (reply : completion (list TransferTask.t)) : UI unit :=
  ui_try
    (activeTransfers ← lift (getActiveTransfers reply);
     let fileCount := length activeTransfers in
     ui_emit (SetTextContent "file-count" (pretty fileCount +:+ " transfers")))
    (λ error,
       ui_emit (Core (ConsoleError "Failed to update file count:" [JStr error]))).

(** The error a caller throws, if it throws. *)
Definition thrown_ui {A} (o : ui_outcome A) : option string :=
  match ui_result o with
  | Thrown e => Some e
  | Returned _ => None
  end.

(** The backend commands among the effects of a caller. *)
Definition ui_backend_calls (es : list ui_effect) : list string :=
  omap (λ e, match e with
             | Core (Invoke cmd _) => Some cmd
             | SetStorage _ _ => Some "set_storage"
             | _ => None
             end) es.

(** The dialog is connected through [conn-1]. *)
Definition connected_shell : Shell :=
  {| app := one_connection;
     sshConfigManager :=
       {| SSHConfigManager.isConnected := true;
          SSHConfigManager.currentConnectionId := Some "conn-1" |} |}.

Definition example_form : SSHConfigForm.t :=
  {| SSHConfigForm.host := "build-box";
     SSHConfigForm.port := 22;
     SSHConfigForm.username := "dev";
     SSHConfigForm.keyPath := Some "~/.ssh/id_rsa";
     SSHConfigForm.password := None;
     SSHConfigForm.useKeyAuth := true |}.

(** ** Themes ([Components/Theme/theme.ts], [Util/constants.ts]) *)

Module Theme.

Definition THEME_LIGHT : string := "light".
Definition THEME_DARK : string := "dark".
Definition THEME_CUSTOM : string := "custom".

(** The part of the browser the theme functions touch: the attributes of
    the elements (element 0 is [document.documentElement]), what
    [document.querySelector] finds, [localStorage], whether the [Storage]
    interface is defined, and the system's colour scheme. *)
Record page := {
  attributes : gmap nat (gmap string string);
  querySelector : string → option nat;
  localStorage : gmap string string;
  storage_defined : bool;
  prefersDark : bool }.

Definition documentElement : nat := 0%nat.

Definition setAttribute (el : nat) (name value : string) (p : page) : page :=
  {| attributes :=
       <[el := <[name := value]> (default ∅ (attributes p !! el))]> (attributes p);
     querySelector := querySelector p;
     localStorage := localStorage p;
     storage_defined := storage_defined p;
     prefersDark := prefersDark p |}.

Definition getAttribute (el : nat) (name : string) (p : page) : option string :=
  attributes p !! el ≫= (λ attrs, attrs !! name).

Definition setItem (key value : string) (p : page) : page :=
  {| attributes := attributes p;
     querySelector := querySelector p;
     localStorage := <[key := value]> (localStorage p);
     storage_defined := storage_defined p;
     prefersDark := prefersDark p |}.

Definition updateTheme (selector : string) (customTheme : option string)
    (p : page) : page :=
  let element :=
    if decide (selector = "*") then Some documentElement
    else querySelector p selector in
  match element with
  | None => p
  | Some element =>
      match customTheme with
      | Some custom =>
          if falsy custom then
            setAttribute element "data-theme"
              (if prefersDark p then THEME_DARK else THEME_LIGHT) p
          else
            (* Apply custom theme *)
            setAttribute element "data-custom-theme" custom
              (setAttribute element "data-theme" THEME_CUSTOM p)
      | None =>
          (* Apply default theme based on system preference *)
          setAttribute element "data-theme"
            (if prefersDark p then THEME_DARK else THEME_LIGHT) p
      end
  end.

Definition setTheme (theme : string) (p : page) : page :=
  let p := setAttribute documentElement "data-theme" theme p in
  (* Save theme preference *)
  if storage_defined p then setItem "circle9-theme" theme p else p.

Definition getCurrentTheme (p : page) : string :=
  match getAttribute documentElement "data-theme" p with
  | Some theme => if falsy theme then THEME_LIGHT else theme
  | None => THEME_LIGHT
  end.

Definition loadTheme (p : page) : page :=
  match localStorage p !! "circle9-theme" with
  | Some savedTheme =>
      if falsy savedTheme then updateTheme "*" None p else setTheme savedTheme p
  | None => updateTheme "*" None p
  end.

Definition toggleTheme (p : page) : page :=
  let currentTheme := getCurrentTheme p in
  let newTheme :=
    if decide (currentTheme = THEME_LIGHT) then THEME_DARK else THEME_LIGHT in
  setTheme newTheme p.

(** A page loaded anew, with no theme attribute; [localStorage] is kept. *)
Definition reload (p : page) : page :=
  {| attributes := ∅;
     querySelector := querySelector p;
     localStorage := localStorage p;
     storage_defined := storage_defined p;
     prefersDark := prefersDark p |}.

Definition fresh (dark : bool) : page :=
  {| attributes := ∅;
     querySelector := λ _, None;
     localStorage := ∅;
     storage_defined := true;
     prefersDark := dark |}.

End Theme.

(** * Properties *)

(** ** Proof support *)

(** Case analysis on whatever a method branches on. *)
Ltac branch :=
  repeat match goal with
         | |- context [match ?x with _ => _ end] => destruct x eqn:?; simpl
         end.

(** Run the monad's plumbing, leaving the methods' own branches. *)
Ltac run_m :=
  cbv [mbind mret M_bind M_ret bind ret emit gets modify throw try_catch invoke
       result final effects];
  simpl.

(** ** The session registry *)

Lemma connect_resolved config now id s :
  connect config now (Returned id) s =
  Outcome (Returned id)
    (with_ssh (λ m,
       {| connections := <[id := connection_of config now id]> (connections m);
          currentConnection := Some id |}) s)
    [Invoke "connect_ssh"
       [("host", JStr (SSHConfig.host config));
        ("port", JNum (SSHConfig.port config));
        ("username", JStr (SSHConfig.username config));
        ("keyPath", js_opt (SSHConfig.keyPath config));
        ("password", js_opt (SSHConfig.password config))]].
Proof. reflexivity. Qed.

Lemma connect_rejected config now e s :
  connect config now (Thrown e) s =
  Outcome (Thrown e) s
    [Invoke "connect_ssh"
       [("host", JStr (SSHConfig.host config));
        ("port", JNum (SSHConfig.port config));
        ("username", JStr (SSHConfig.username config));
        ("keyPath", js_opt (SSHConfig.keyPath config));
        ("password", js_opt (SSHConfig.password config))];
     ConsoleError "Failed to connect to SSH:" [JStr e]].
Proof. reflexivity. Qed.

Lemma disconnect_resolved id s :
  disconnect id (Returned tt) s =
  Outcome (Returned tt)
    (with_ssh (λ m,
       {| connections := delete id (connections m);
          currentConnection :=
            if decide (currentConnection m = Some id) then None
            else currentConnection m |}) s)
    [Invoke "disconnect_ssh" [("connectionId", JStr id)]].
Proof. reflexivity. Qed.

Lemma disconnect_rejected id e s :
  disconnect id (Thrown e) s =
  Outcome (Thrown e) s
    [Invoke "disconnect_ssh" [("connectionId", JStr id)];
     ConsoleError "Failed to disconnect SSH:" [JStr e]].
Proof. reflexivity. Qed.

Lemma pointer_valid_initial : pointer_valid initial.
Proof. intros id H. discriminate H. Qed.

Lemma pointer_valid_remove id s :
  pointer_valid s →
  pointer_valid (with_ssh (λ m,
    {| connections := delete id (connections m);
       currentConnection :=
         if decide (currentConnection m = Some id) then None
         else currentConnection m |}) s).
Proof.
  intros Hs id'. simpl. case_decide as Hcur; [discriminate |].
  intros Hid'. rewrite lookup_delete_ne; [by apply Hs | congruence].
Qed.

Lemma pointer_valid_frame s s' :
  sshStateManager s' = sshStateManager s → pointer_valid s → pointer_valid s'.
Proof. unfold pointer_valid. intros ->. done. Qed.

(** The drag-and-drop handler reaches the other managers only through
    [onProgress]. *)
Lemma handleDragStart_frame target dataTransfer s :
  sshStateManager (final (handleDragStart target dataTransfer s)) = sshStateManager s ∧
  transferQueueManager (final (handleDragStart target dataTransfer s))
  = transferQueueManager s.
Proof.
  destruct target as [| [f |]]; [done | | done]. unfold handleDragStart. simpl.
  by destruct (extractDragData f), dataTransfer.
Qed.

Lemma initiateTransfer_frame data destPane direction reply s :
  let s' := final (initiateTransfer data destPane direction reply s) in
  sshStateManager s' = sshStateManager s ∧
  activeTransfers (transferQueueManager s') = activeTransfers (transferQueueManager s).
Proof.
  unfold initiateTransfer. simpl.
  destruct (getDestinationPath _ _) as [p |]; simpl; [| done].
  destruct (falsy p); simpl; [done |].
  by destruct reply.
Qed.

Lemma handleDrop_frame target reply s :
  let s' := final (handleDrop target reply s) in
  sshStateManager s' = sshStateManager s ∧
  activeTransfers (transferQueueManager s') = activeTransfers (transferQueueManager s).
Proof.
  unfold handleDrop. simpl.
  destruct (dragData (dragDropHandler s)) as [d |]; simpl; [| done].
  case_decide; simpl; [done |].
  destruct (getTransferDirection _ _); simpl; [| done].
  apply initiateTransfer_frame.
Qed.

Lemma step_pointer_valid o s : pointer_valid s → pointer_valid (step o s).
Proof.
  intros Hs. destruct o; unfold step, exec, observe, fst;
    try (apply pointer_valid_frame with s; [| exact Hs];
         try destruct reply; simpl; branch; reflexivity).
  - (* ssh-disconnected *) by apply pointer_valid_remove.
  - (* connect *)
    destruct reply as [id | e].
    + rewrite connect_resolved. intros id'. simpl. intros [= <-].
      rewrite lookup_insert_eq. by eexists.
    + by rewrite connect_rejected.
  - (* disconnect *)
    destruct reply as [[] | e].
    + rewrite disconnect_resolved. by apply pointer_valid_remove.
    + by rewrite disconnect_rejected.
  - (* setCurrentConnection *)
    unfold setCurrentConnection. simpl. case_bool_decide as Hhas; simpl; [| done].
    intros id'. simpl. by intros [= <-].
  - (* dragstart *)
    apply pointer_valid_frame with s; [| exact Hs]. apply handleDragStart_frame.
  - (* drop *)
    apply pointer_valid_frame with s; [| exact Hs]. apply handleDrop_frame.
  - (* the continuation of a drop *)
    apply pointer_valid_frame with s; [| exact Hs]. apply initiateTransfer_frame.
Qed.

Lemma run_pointer_valid ops s : pointer_valid s → pointer_valid (run ops s).
Proof.
  revert s. induction ops as [| o ops IH]; intros s Hs; simpl; [done |].
  by apply IH, step_pointer_valid.
Qed.

Lemma getCurrentConnection_stored s :
  result (getCurrentConnection s) = Returned None ∨
  ∃ id c, connections (sshStateManager s) !! id = Some c ∧
          result (getCurrentConnection s) = Returned (Some c).
Proof.
  unfold getCurrentConnection. simpl.
  destruct (currentConnection (sshStateManager s)) as [id |]; simpl; [| by left].
  destruct (falsy id); simpl; [by left |].
  destruct (connections (sshStateManager s) !! id) as [c |] eqn:Hc; [| by left].
  right. by exists id, c.
Qed.

(** C10. The current-connection pointer is null or names a record held
    by the registry, in every state the application reaches: a successful
    [connect] points it at the record it has just stored,
    [setCurrentConnection] does nothing for an identifier the registry does
    not hold, removing the current connection ([disconnect] acknowledged by
    the backend, or the backend's [ssh-disconnected] event) clears it; so
    [getCurrentConnection] returns null or a record stored in the registry. *)
Theorem current_connection_in_registry :
  (∀ ops, pointer_valid (run ops initial)) ∧
  (∀ s config now id,
     let s' := final (connect config now (Returned id) s) in
     current s' = Some id ∧
     registry s' !! id = Some (connection_of config now id)) ∧
  (∀ s id, registry s !! id = None → final (setCurrentConnection id s) = s) ∧
  (∀ s id, current s = Some id →
     current (final (disconnect id (Returned tt) s)) = None ∧
     current (final (on_ssh_disconnected id s)) = None) ∧
  (∀ ops, let s := run ops initial in
     result (getCurrentConnection s) = Returned None ∨
     ∃ id c, registry s !! id = Some c ∧
             result (getCurrentConnection s) = Returned (Some c)).
Proof.
  split_and!.
  - intros ops. apply run_pointer_valid, pointer_valid_initial.
  - intros s config now id. rewrite connect_resolved. simpl.
    by rewrite lookup_insert_eq.
  - intros s id Hid. unfold setCurrentConnection. simpl. rewrite Hid.
    by rewrite bool_decide_eq_false_2; [| apply is_Some_None].
  - intros s id Hcur. rewrite disconnect_resolved. simpl.
    by rewrite !decide_True.
  - intros ops. apply getCurrentConnection_stored.
Qed.

Lemma current_connection_in_registry_witness :
  final (setCurrentConnection "conn-9" one_connection) = one_connection ∧
  current (final (disconnect "conn-1" (Returned tt) one_connection)) = None ∧
  current (final (on_ssh_disconnected "conn-1" one_connection)) = None.
Proof.
  destruct current_connection_in_registry as (_ & _ & Hset & Hdel & _).
  split.
  - apply Hset. reflexivity.
  - apply Hdel. reflexivity.
Defined.

(** C4, as the code has it.  [connect] does not look for a connection with
    the same host and username: every call sends [connect_ssh]; when the
    backend answers with an identifier, a record is stored under it
    (replacing the record already stored under that identifier, if any),
    it becomes the current connection and it is the value returned, so the
    registry gains no record exactly when the backend returns an
    identifier that is already registered; when the backend refuses, the
    error is rethrown and the state is unchanged. *)
Theorem connect_registers_backend_identifier config now s :
  (∀ id, let o := connect config now (Returned id) s in
     result o = Returned id ∧
     registry (final o) = <[id := connection_of config now id]> (registry s) ∧
     current (final o) = Some id ∧
     size (registry (final o)) =
       match registry s !! id with
       | Some _ => size (registry s)
       | None => S (size (registry s))
       end ∧
     backend_calls (effects o) = ["connect_ssh"]) ∧
  (∀ e, let o := connect config now (Thrown e) s in
     result o = Thrown e ∧ final o = s).
Proof.
  split.
  - intros id. rewrite connect_resolved. simpl. split_and!; try done.
    rewrite map_size_insert. by destruct (registry s !! id).
  - intros e. by rewrite connect_rejected.
Qed.

(** C4 fails as stated: with [conn-1] live for build-box/dev, a second
    [connect] for the same host and username to which the backend answers
    [conn-2] returns [conn-2] and leaves two records in the registry. *)
Lemma connect_twice_registers_two_connections :
  let o := connect example_config 5 (Returned "conn-2") one_connection in
  live one_connection "conn-1" ∧
  (SSHConnection.host <$> registry one_connection !! "conn-1") = Some (SSHConfig.host example_config) ∧
  (SSHConnection.username <$> registry one_connection !! "conn-1") = Some (SSHConfig.username example_config) ∧
  result o = Returned "conn-2" ∧
  result o ≠ Returned "conn-1" ∧
  size (registry one_connection) = 1%nat ∧
  size (registry (final o)) = 2%nat.
Proof.
  split_and!; try by vm_compute.
  eexists. split; by vm_compute.
Qed.

(** C9, as the code has it.  [disconnect] sends [disconnect_ssh] whatever
    the registry holds.  When the backend acknowledges, the call returns
    without error, also for an identifier the registry never held, and the
    identifier is absent from the registry afterwards and is not the current
    connection.  When the backend call fails, the failure is logged and
    rethrown to the caller, and the state is unchanged. *)
Theorem disconnect_follows_backend id s :
  (let o := disconnect id (Returned tt) s in
   result o = Returned tt ∧
   registry (final o) !! id = None ∧
   current (final o) ≠ Some id ∧
   effects o = [Invoke "disconnect_ssh" [("connectionId", JStr id)]]) ∧
  (∀ e, let o := disconnect id (Thrown e) s in
   result o = Thrown e ∧
   final o = s ∧
   effects o = [Invoke "disconnect_ssh" [("connectionId", JStr id)];
                ConsoleError "Failed to disconnect SSH:" [JStr e]]).
Proof.
  split.
  - rewrite disconnect_resolved. simpl. split_and!; try done.
    + apply lookup_delete_eq.
    + by case_decide.
  - intros e. by rewrite disconnect_rejected.
Qed.

(** C9 fails as stated: a backend failure on an identifier the registry
    does not hold reaches the caller, and after a failed [disconnect] of a
    registered identifier the identifier is still in the registry. *)
Lemma disconnect_failure_is_rethrown :
  registry initial !! "ghost" = None ∧
  result (disconnect "ghost" (Thrown "not connected") initial) = Thrown "not connected" ∧
  is_Some (registry (final (disconnect "conn-1" (Thrown "timeout") one_connection)) !! "conn-1").
Proof.
  split_and!; try by vm_compute.
  eexists. by vm_compute.
Qed.

(** X27.  On the backend's [ssh-disconnected] event the connection's
    record is removed from the registry, so the registry no longer holds
    a live connection under that identifier; the current-connection
    pointer is cleared if it named that connection and kept otherwise;
    the other connections and the transfer manager are unchanged: the
    listener does not reach the transfer manager. *)
Theorem ssh_disconnected_removes_connection id s :
  let s' := final (on_ssh_disconnected id s) in
  ¬ live s' id ∧
  registry s' !! id = None ∧
  (current s = Some id → current s' = None) ∧
  (current s ≠ Some id → current s' = current s) ∧
  (∀ id', id' ≠ id → registry s' !! id' = registry s !! id') ∧
  transferQueueManager s' = transferQueueManager s.
Proof.
  unfold live. simpl. split_and!.
  - intros (c & Hc & _). by rewrite lookup_delete_eq in Hc.
  - apply lookup_delete_eq.
  - intros Hcur. by rewrite decide_True.
  - intros Hcur. by rewrite decide_False.
  - intros id' Hne. by rewrite lookup_delete_ne.
  - done.
Qed.

Lemma ssh_disconnected_removes_connection_witness :
  current (final (on_ssh_disconnected "conn-1" one_connection)) = None ∧
  current (final (on_ssh_disconnected "conn-2" one_connection)) = current one_connection ∧
  registry (final (on_ssh_disconnected "conn-2" one_connection)) !! "conn-1"
    = registry one_connection !! "conn-1".
Proof.
  split_and!.
  - apply (ssh_disconnected_removes_connection "conn-1" one_connection). reflexivity.
  - apply (ssh_disconnected_removes_connection "conn-2" one_connection). discriminate.
  - apply (ssh_disconnected_removes_connection "conn-2" one_connection). discriminate.
Defined.

(** ** The transfer manager *)

(** No operation writes a task record: a record found after a step was
    there, unchanged, before it. *)
Lemma step_tasks_preserved o s id t :
  tasks (step o s) !! id = Some t → tasks s !! id = Some t.
Proof.
  destruct o; unfold step, exec, observe, fst;
    try (try destruct reply; simpl; branch; done).
  - (* cancelTransfer *)
    destruct reply as [[] | e]; simpl; [| done].
    intros H. apply lookup_delete_Some in H. tauto.
  - (* transfer_completed *)
    simpl. intros H. apply lookup_delete_Some in H. tauto.
  - (* transfer_failed *)
    simpl. intros H. apply lookup_delete_Some in H. tauto.
  - (* dragstart *)
    destruct (handleDragStart_frame target dataTransfer s) as [_ ->]. done.
  - (* drop *)
    destruct (handleDrop_frame target reply s) as [_ ->]. done.
  - (* the continuation of a drop *)
    destruct (initiateTransfer_frame data destPane direction reply s) as [_ ->]. done.
Qed.

Lemma run_tasks_preserved ops s id t :
  tasks (run ops s) !! id = Some t → tasks s !! id = Some t.
Proof.
  revert s. induction ops as [| o ops IH]; intros s; simpl; [done |].
  intros H. by apply (step_tasks_preserved o), IH.
Qed.

(** X1.  The front end never stores a task: no operation inserts into the
    map of active transfers, which is empty in every state the
    application reaches. *)
Lemma front_end_stores_no_task ops : tasks (run ops initial) = ∅.
Proof.
  apply map_empty. intros id.
  destruct (tasks (run ops initial) !! id) as [t |] eqn:Hid; [| done].
  apply run_tasks_preserved in Hid. unfold initial in Hid. simpl in Hid.
  by rewrite lookup_empty in Hid.
Qed.

Lemma handleTransferProgress_unfold progress s :
  handleTransferProgress progress s =
  Outcome (Returned tt) s
    ([ConsoleLog "Transfer progress:" [JProgress progress];
      SetProgressBars (TransferProgress.percentage progress);
      SetStatusBar (TransferProgress.filename progress)
                   (TransferProgress.percentage progress)] ++
     match observers s !! TransferProgress.taskId progress with
     | Some cb => [Call cb progress]
     | None => []
     end).
Proof.
  unfold handleTransferProgress, updateProgressUI. run_m.
  by destruct (observers s !! TransferProgress.taskId progress).
Qed.

Lemma cancelTransfer_resolved taskId s :
  cancelTransfer taskId (Returned tt) s =
  Outcome (Returned tt)
    (with_queue (λ q,
       {| activeTransfers := delete taskId (activeTransfers q);
          progressCallbacks := progressCallbacks q |}) s)
    [Invoke "cancel_transfer" [("taskId", JStr taskId)]].
Proof. reflexivity. Qed.

Lemma cancelTransfer_rejected taskId e s :
  cancelTransfer taskId (Thrown e) s =
  Outcome (Thrown e) s
    [Invoke "cancel_transfer" [("taskId", JStr taskId)];
     ConsoleError "Failed to cancel transfer:" [JStr e]].
Proof. reflexivity. Qed.

(** X26.  [cancelTransfer] forwards every cancellation to the backend:
    it sends [cancel_transfer] whatever the front end knows of the task.
    When the backend acknowledges, the identifier is deleted from the map
    of active transfers and the progress callback stays registered; when
    the backend call fails, the error is rethrown and the state is
    unchanged. *)
Theorem cancelTransfer_always_asks_backend taskId s :
  (let o := cancelTransfer taskId (Returned tt) s in
   result o = Returned tt ∧
   backend_calls (effects o) = ["cancel_transfer"] ∧
   tasks (final o) = delete taskId (tasks s) ∧
   observers (final o) = observers s) ∧
  (∀ e, let o := cancelTransfer taskId (Thrown e) s in
   result o = Thrown e ∧
   backend_calls (effects o) = ["cancel_transfer"] ∧
   final o = s).
Proof.
  split.
  - by rewrite cancelTransfer_resolved.
  - intros e. by rewrite cancelTransfer_rejected.
Qed.

(** C8, as the code has it.  When a terminal outcome arrives for a task
    ([transfer_completed] or [transfer_failed]), the manager removes the
    task's record from its map of active transfers and unregisters the
    callback subscribed for that task identifier; no callback is invoked. *)
Theorem terminal_event_drops_task_and_observer taskId s :
  (let o := handleTransferCompleted taskId s in
   tasks (final o) = delete taskId (tasks s) ∧
   observers (final o) = delete taskId (observers s) ∧
   observers (final o) !! taskId = None ∧
   callback_calls (effects o) = []) ∧
  (∀ error, let o := handleTransferFailed taskId error s in
   tasks (final o) = delete taskId (tasks s) ∧
   observers (final o) = delete taskId (observers s) ∧
   observers (final o) !! taskId = None ∧
   callback_calls (effects o) = []).
Proof.
  split; [| intros error]; simpl; split_and!; try done; apply lookup_delete_eq.
Qed.

(** C8 fails as stated: observer 1 is subscribed to task [T]; neither
    [transfer_completed] nor [transfer_failed] for [T] invokes it, and no
    record with a terminal status is left for the task. *)
Lemma terminal_event_does_not_notify :
  let done := handleTransferCompleted "T" subscribed in
  let broken := handleTransferFailed "T" "disk full" subscribed in
  subscribed = run [OnProgress "T" (Observer 1)] initial ∧
  observers subscribed !! "T" = Some (Observer 1) ∧
  callback_calls (effects done) = [] ∧
  callback_calls (effects broken) = [] ∧
  (TransferTask.status <$> tasks (final done) !! "T") ≠ Some completed ∧
  (TransferTask.status <$> tasks (final broken) !! "T") ≠ Some failed.
Proof. split_and!; by vm_compute. Qed.

(** ** The drag-and-drop translator *)

Lemma falsy_spec s : falsy s = true ↔ s = "".
Proof. apply String.eqb_eq. Qed.

(** [extractDragData] yields no data without a path or without a file name,
    and otherwise records the pane the item sits in. *)
Lemma extractDragData_None fileItem :
  default "" (FileItem.path fileItem) = "" ∨
  default "" (FileItem.filename fileItem) = "" →
  extractDragData fileItem = None.
Proof.
  unfold extractDragData. intros [H | H]; rewrite H; simpl; [done |].
  by rewrite orb_true_r.
Qed.

Lemma extractDragData_Some fileItem d :
  extractDragData fileItem = Some d →
  DragDropData.sourcePane d = FileItem.paneId fileItem.
Proof.
  unfold extractDragData. destruct (_ || _); [done |]. by intros [= <-].
Qed.

Lemma handleDragStart_unfold fileItem s :
  handleDragStart (ElementNode (Some fileItem)) true s =
  Outcome (Returned tt)
    (with_drag (λ _, {| dragData := extractDragData fileItem; isDragging := true |}) s)
    match extractDragData fileItem with
    | Some d => [SetDragData d; SetEffectAllowed "copy";
                 ClassAdd "file-item" "dragging"]
    | None => []
    end.
Proof.
  unfold handleDragStart. run_m. by destruct (extractDragData fileItem).
Qed.

(** A drop without drag data does nothing but clear the drop highlight. *)
Lemma handleDrop_no_data target reply s :
  dragData (dragDropHandler s) = None →
  handleDrop target reply s =
  Outcome (Returned tt) s
    [PreventDefault; ClassRemove (getPaneId target) "drag-over"].
Proof. intros H. unfold handleDrop. run_m. by rewrite H. Qed.

(** A drop on the pane the drag started in is logged and dropped. *)
Lemma handleDrop_same_pane target reply s d :
  dragData (dragDropHandler s) = Some d →
  DragDropData.sourcePane d = getPaneId target →
  handleDrop target reply s =
  Outcome (Returned tt) s
    [PreventDefault; ClassRemove (getPaneId target) "drag-over";
     ConsoleLog "Cannot drop on same pane" []].
Proof.
  intros H Hsame. unfold handleDrop. run_m. rewrite H.
  by rewrite decide_True.
Qed.

(** C5, as the code has it.  A gesture whose source pane equals its
    destination pane, and a gesture whose source path or file name is
    empty, is dropped without a typed rejection: the handler returns
    normally (silently when the path or the file name is empty, logging
    [Cannot drop on same pane] otherwise), sends no command to the
    backend, and leaves the transfer manager, with its task store, and
    the session registry unchanged. *)
Theorem invalid_gesture_creates_no_task fileItem target reply s :
  FileItem.paneId fileItem = getPaneId target ∨
  default "" (FileItem.path fileItem) = "" ∨
  default "" (FileItem.filename fileItem) = "" →
  let o := gesture fileItem target reply s in
  result o = Returned tt ∧
  backend_calls (effects o) = [] ∧
  transferQueueManager (final o) = transferQueueManager s ∧
  sshStateManager (final o) = sshStateManager s.
Proof.
  intros Hbad. unfold gesture. cbv [mbind M_bind bind].
  rewrite handleDragStart_unfold. cbv [result final effects].
  destruct (extractDragData fileItem) as [d |] eqn:Hd.
  - assert (DragDropData.sourcePane d = getPaneId target) as Hsame.
    { rewrite (extractDragData_Some _ _ Hd).
      destruct Hbad as [Hpane | Hempty]; [done |].
      by rewrite (extractDragData_None _ Hempty) in Hd. }
    by rewrite (handleDrop_same_pane _ _ _ d).
  - by rewrite handleDrop_no_data.
Qed.

Lemma invalid_gesture_creates_no_task_witness :
  let same := gesture (example_file "windows-content-pane" (Some "C:\data\a.bin") (Some "a.bin"))
                (Some "windows-content-pane") (Returned "task-1") subscribed in
  let nameless := gesture (example_file "windows-content-pane" (Some "C:\data\a.bin") None)
                (Some "linux-content-pane") (Returned "task-1") subscribed in
  (result same = Returned tt ∧
   backend_calls (effects same) = [] ∧
   transferQueueManager (final same) = transferQueueManager subscribed ∧
   sshStateManager (final same) = sshStateManager subscribed) ∧
  (result nameless = Returned tt ∧
   backend_calls (effects nameless) = [] ∧
   transferQueueManager (final nameless) = transferQueueManager subscribed ∧
   sshStateManager (final nameless) = sshStateManager subscribed).
Proof.
  split.
  - apply invalid_gesture_creates_no_task. left. reflexivity.
  - apply invalid_gesture_creates_no_task. right. right. reflexivity.
Defined.

(** C5 fails as stated: the same-pane gesture and the gesture without a
    source path are not answered with a typed rejection; the handler
    returns normally, exactly as it does for a gesture it accepts. *)
Lemma invalid_gesture_is_not_rejected :
  let same := gesture (example_file "windows-content-pane" (Some "C:\data\a.bin") (Some "a.bin"))
                (Some "windows-content-pane") (Returned "task-1") initial in
  let pathless := gesture (example_file "windows-content-pane" None (Some "a.bin"))
                (Some "linux-content-pane") (Returned "task-1") initial in
  let accepted := gesture (example_file "windows-content-pane" (Some "C:\data\a.bin") (Some "a.bin"))
                (Some "linux-content-pane") (Returned "task-1") initial in
  ¬ rejected_with "SamePaneError" same ∧
  ¬ rejected_with "InvalidRequestError" pathless ∧
  result same = Returned tt ∧
  result pathless = Returned tt ∧
  result accepted = Returned tt ∧
  backend_calls (effects accepted) = ["create_transfer_task"].
Proof. split_and!; by vm_compute. Qed.

(** A gesture from a Windows pane to a Linux pane is translated into one
    [create_transfer_task] command and subscribes the progress container
    to the task the backend created. *)
Example accepted_gesture :
  let o := gesture (example_file "windows-content-pane" (Some "C:\data\a.bin") (Some "a.bin"))
             (Some "linux-content-pane") (Returned "task-1") initial in
  effects o =
    [SetDragData
       {| DragDropData.sourcePane := "windows-content-pane";
          DragDropData.destPane := "";
          DragDropData.sourcePath := "C:\data\a.bin";
          DragDropData.destPath := "";
          DragDropData.filename := "a.bin";
          DragDropData.isDirectory := false |};
     SetEffectAllowed "copy";
     ClassAdd "file-item" "dragging";
     PreventDefault;
     ClassRemove "linux-content-pane" "drag-over";
     Invoke "create_transfer_task"
       [("sourcePath", JStr "C:\data\a.bin");
        ("destPath", JStr "/home/user/a.bin");
        ("direction", JStr "windows_to_linux")];
     ConsoleLog "Transfer task created:" [JStr "task-1"];
     ConsoleLog "Transfer initiated:" [JStr "task-1"];
     ShowTransferProgress "task-1" "a.bin"] ∧
  observers (final o) !! "task-1" = Some (UpdateContainer "task-1") ∧
  tasks (final o) = ∅.
Proof. split_and!; by vm_compute. Qed.

(** ** The transfer scheduler *)

Section scheduler.
Import Scheduler.

Lemma running_alter f i ts k :
  ts !! i = Some k →
  (length (filter (λ k, is_running k = true) (alter f i ts))
     + (if is_running k then 1 else 0)
   = length (filter (λ k, is_running k = true) ts)
     + (if is_running (f k) then 1 else 0))%nat.
Proof.
  revert i. induction ts as [| a ts IH]; intros [| i] Hi; simplify_eq/=.
  - rewrite !filter_cons.
    destruct (is_running k), (is_running (f k)); simpl; lia.
  - specialize (IH i Hi). rewrite !filter_cons.
    destruct (decide (is_running a = true)); simpl; lia.
Qed.

Lemma running_snoc ts k :
  length (filter (λ k, is_running k = true) (ts ++ [k]))
  = (length (filter (λ k, is_running k = true) ts)
     + (if is_running k then 1 else 0))%nat.
Proof.
  rewrite filter_app, length_app, filter_cons, filter_nil.
  by destruct (is_running k).
Qed.

Lemma status_of_Some s i st : status_of s i = Some st → (i < length (tasks s))%nat.
Proof.
  unfold status_of. intros H. apply fmap_Some in H as (k & Hk & _).
  by apply lookup_lt_Some in Hk.
Qed.

Lemma status_of_lookup s i st :
  status_of s i = Some st → ∃ k, tasks s !! i = Some k ∧ status k = st.
Proof.
  unfold status_of. intros H. apply fmap_Some in H as (k & Hk & ->). by exists k.
Qed.

Lemma is_running_status k st :
  status k = st → is_running k = match st with in_progress => true | _ => false end.
Proof. by intros <-. Qed.

Lemma is_running_terminal st e k :
  is_terminal st = true → is_running (set_status st e k) = false.
Proof. by destruct st. Qed.

Lemma init_inv N : invariant (init N).
Proof.
  split; [unfold running; simpl; lia |]. split; [apply NoDup_nil_2 | apply Forall_nil_2].
Qed.

Lemma submit_inv r s : invariant s → invariant (submit r s).1.
Proof.
  intros (Hrun & Hnd & Hq). unfold submit. case_decide as Hroom; simpl.
  - split; [| split]; simpl.
    + unfold running in *. simpl. rewrite running_snoc. simpl. lia.
    + done.
    + eapply Forall_impl; [exact Hq |]. intros i Hi. simpl in *.
      unfold status_of in *. simpl.
      rewrite lookup_app_l; [done |]. by eapply (status_of_Some s).
  - split; [| split]; simpl.
    + unfold running in *. simpl. rewrite running_snoc. simpl. lia.
    + apply NoDup_app. split_and!; [done | | apply NoDup_singleton].
      intros i Hi Hi'. apply list_elem_of_singleton in Hi'. subst i.
      rewrite Forall_forall in Hq. apply Hq in Hi.
      apply status_of_Some in Hi. lia.
    + apply Forall_app. split.
      * eapply Forall_impl; [exact Hq |]. intros i Hi. simpl in *.
        unfold status_of in *. simpl.
        rewrite lookup_app_l; [done |]. by eapply (status_of_Some s).
      * apply Forall_singleton. unfold status_of. simpl.
        by rewrite lookup_app_r, Nat.sub_diag.
Qed.

Lemma status_of_alter_ne f i j c ts q :
  i ≠ j →
  status_of {| ceiling := c; tasks := alter f i ts; queue := q |} j
  = status_of {| ceiling := c; tasks := ts; queue := q |} j.
Proof. intros Hne. unfold status_of. simpl. by rewrite list_lookup_alter_ne. Qed.

Lemma status_of_alter_eq st e i c ts q :
  is_Some (ts !! i) →
  status_of {| ceiling := c; tasks := alter (set_status st e) i ts; queue := q |} i
  = Some st.
Proof.
  intros [k Hk]. unfold status_of. simpl. by rewrite list_lookup_alter_eq, Hk.
Qed.

(** A terminal status for a task in progress frees one slot. *)
Lemma finish_inv id st e s :
  is_terminal st = true → invariant s → invariant (finish id st e s).1.
Proof.
  intros Hst (Hrun & Hnd & Hq). unfold finish.
  destruct (status_of s id) as [[] |] eqn:Hid; try by (split; [| split]).
  destruct (status_of_lookup _ _ _ Hid) as (k & Hk & Hkst).
  pose proof (running_alter (set_status st e) id (tasks s) k Hk) as Hcount.
  rewrite (is_running_status k in_progress), (is_running_terminal st) in Hcount by done.
  simpl in Hcount.
  assert (Forall (λ i, i ≠ id) (queue s)) as Hne.
  { eapply Forall_impl; [exact Hq |]. simpl. intros i Hi ->. congruence. }
  unfold promote. simpl. destruct (queue s) as [| h rest] eqn:Hqueue; simpl.
  - split; [| split]; simpl.
    + unfold running in *. simpl. lia.
    + apply NoDup_nil_2.
    + apply Forall_nil_2.
  - apply NoDup_cons in Hnd as [Hh Hnd].
    apply Forall_cons in Hq as [Hhq Hq]. apply Forall_cons in Hne as [Hhne Hne].
    destruct (status_of_lookup _ _ _ Hhq) as (kh & Hkh & Hkhst).
    split; [| split]; simpl.
    + unfold running in *. simpl.
      pose proof (running_alter (set_status in_progress None) h
                    (alter (set_status st e) id (tasks s)) kh) as Hcount'.
      rewrite list_lookup_alter_ne in Hcount' by done.
      specialize (Hcount' Hkh).
      rewrite (is_running_status kh pending) in Hcount' by done.
      simpl in Hcount'. lia.
    + done.
    + rewrite Forall_forall in Hq, Hne. apply Forall_forall. intros i Hi.
      unfold status_of in *. simpl.
      assert (h ≠ i) by (by intros ->).
      assert (id ≠ i) by (intros ->; by eapply Hne).
      rewrite !list_lookup_alter_ne by done. by apply Hq.
Qed.

Lemma step_inv ev s : invariant s → invariant (step ev s).1.
Proof.
  intros HI. destruct ev as [r | id | id msg | id | id]; simpl.
  - by apply submit_inv.
  - by apply finish_inv.
  - by apply finish_inv.
  - destruct (status_of s id) as [[] |] eqn:Hid; simpl; try done.
    + destruct HI as (Hrun & Hnd & Hq).
      destruct (status_of_lookup _ _ _ Hid) as (k & Hk & Hkst).
      split; [| split]; simpl.
      * unfold running in *. simpl.
        pose proof (running_alter (set_status cancelled None) id (tasks s) k Hk) as Hc.
        rewrite (is_running_status k pending) in Hc by done.
        simpl in Hc. lia.
      * by apply NoDup_filter.
      * rewrite Forall_forall in Hq. apply Forall_forall. intros i Hi.
        apply list_elem_of_filter in Hi as [Hne Hi].
        unfold status_of in *. simpl.
        rewrite list_lookup_alter_ne by done. by apply Hq.
    + by apply finish_inv.
  - destruct (tasks s !! id) as [k |]; [| done].
    destruct (status k); try done. by apply submit_inv.
Qed.

Lemma step_ceiling ev s : ceiling (step ev s).1 = ceiling s.
Proof.
  destruct ev as [r | id | id msg | id | id]; simpl;
    unfold finish, submit, promote;
    repeat (simpl; match goal with
                   | |- context [match ?x with _ => _ end] => destruct x
                   end); done.
Qed.

Lemma run_inv evs s : invariant s → invariant (run evs s) ∧ ceiling (run evs s) = ceiling s.
Proof.
  revert s. induction evs as [| ev evs IH]; intros s HI; simpl; [done |].
  destruct (IH (step ev s).1) as [HI' Hc]; [by apply step_inv |].
  split; [done |]. by rewrite Hc, step_ceiling.
Qed.

(** When a task in progress terminates, the head of the wait queue is
    promoted in the same step. *)
Lemma step_promotes ev id h rest s :
  invariant s →
  terminates ev = Some id →
  status_of s id = Some in_progress →
  queue s = h :: rest →
  status_of s h = Some pending ∧
  status_of (step ev s).1 h = Some in_progress ∧
  queue (step ev s).1 = rest ∧
  StartTransfer h ∈ (step ev s).2 ∧
  (∃ st, status_of (step ev s).1 id = Some st ∧ is_terminal st = true).
Proof.
  intros (_ & Hnd & Hq) Hev Hid Hqueue.
  rewrite Hqueue in Hnd, Hq. apply Forall_cons in Hq as [Hh _].
  assert (h ≠ id) as Hne by (intros ->; congruence).
  assert (is_Some (tasks s !! h)) as Hsome.
  { apply lookup_lt_is_Some. by eapply status_of_Some. }
  assert (is_Some (tasks s !! id)) as Hsome'.
  { apply lookup_lt_is_Some. by eapply status_of_Some. }
  assert (∀ st e, is_terminal st = true →
    status_of (finish id st e s).1 h = Some in_progress ∧
    queue (finish id st e s).1 = rest ∧
    StartTransfer h ∈ (finish id st e s).2 ∧
    status_of (finish id st e s).1 id = Some st) as Hfin.
  { intros st e Hst. unfold finish. rewrite Hid. unfold promote. simpl.
    rewrite Hqueue. simpl. split_and!.
    - apply status_of_alter_eq. by rewrite list_lookup_alter_ne.
    - done.
    - set_solver.
    - rewrite status_of_alter_ne by done. by apply status_of_alter_eq. }
  split; [done |].
  destruct ev as [r | id' | id' msg | id' | id']; simplify_eq/=.
  - destruct (Hfin completed None eq_refl) as (? & ? & ? & ?). eauto 10.
  - destruct (Hfin failed (Some msg) eq_refl) as (? & ? & ? & ?). eauto 10.
  - rewrite Hid. simpl.
    destruct (Hfin cancelled None eq_refl) as (? & ? & ? & ?).
    split_and!; [done | done | by apply list_elem_of_further | eauto].
Qed.
End scheduler.

(** C3.  In every state the scheduler reaches with concurrency ceiling
    [N], at most [N] tasks are in progress; and when an event brings an
    in-progress task to a terminal state while the wait queue is not
    empty, the head of the queue, a pending task, is in progress after
    that same step, the backend has been asked to start it, and the rest
    of the queue waits in the same order. *)
Theorem admission_ceiling_and_promotion N evs :
  let s := Scheduler.run evs (Scheduler.init N) in
  (Scheduler.running s ≤ N)%nat ∧
  ∀ ev id h rest,
    Scheduler.terminates ev = Some id →
    Scheduler.status_of s id = Some in_progress →
    Scheduler.queue s = h :: rest →
    Scheduler.status_of s h = Some pending ∧
    Scheduler.status_of (Scheduler.step ev s).1 h = Some in_progress ∧
    Scheduler.queue (Scheduler.step ev s).1 = rest ∧
    Scheduler.StartTransfer h ∈ (Scheduler.step ev s).2 ∧
    (Scheduler.running (Scheduler.step ev s).1 ≤ N)%nat.
Proof.
  destruct (run_inv evs (Scheduler.init N) (init_inv N)) as [HI Hc].
  simpl in Hc. simpl. split.
  - destruct HI as [Hrun _]. by rewrite Hc in Hrun.
  - intros ev id h rest Hev Hid Hq.
    destruct (step_promotes ev id h rest _ HI Hev Hid Hq) as (? & ? & ? & ? & _).
    split_and!; try done.
    destruct (step_inv ev _ HI) as [Hrun _].
    by rewrite step_ceiling, Hc in Hrun.
Qed.

Lemma admission_ceiling_and_promotion_witness :
  let s := Scheduler.run
             [Scheduler.Submit (Scheduler.example_request "a");
              Scheduler.Submit (Scheduler.example_request "b");
              Scheduler.Submit (Scheduler.example_request "c")]
             (Scheduler.init 1) in
  Scheduler.status_of s 1 = Some pending ∧
  Scheduler.status_of (Scheduler.step (Scheduler.Completed 0) s).1 1 = Some in_progress ∧
  Scheduler.queue (Scheduler.step (Scheduler.Completed 0) s).1 = [2%nat] ∧
  Scheduler.StartTransfer 1 ∈ (Scheduler.step (Scheduler.Completed 0) s).2 ∧
  (Scheduler.running (Scheduler.step (Scheduler.Completed 0) s).1 ≤ 1)%nat.
Proof.
  destruct (admission_ceiling_and_promotion 1
              [Scheduler.Submit (Scheduler.example_request "a");
               Scheduler.Submit (Scheduler.example_request "b");
               Scheduler.Submit (Scheduler.example_request "c")]) as [_ Hpromote].
  apply (Hpromote (Scheduler.Completed 0) 0%nat 1%nat [2%nat]); reflexivity.
Defined.

(** With the ceiling the front end declares, at most three tasks are in
    progress. *)
Lemma default_ceiling evs :
  (Scheduler.running (Scheduler.run evs (Scheduler.init MAX_CONCURRENT_TRANSFERS)) ≤ 3)%nat.
Proof.
  destruct (run_inv evs (Scheduler.init MAX_CONCURRENT_TRANSFERS)
              (init_inv MAX_CONCURRENT_TRANSFERS)) as [[Hrun _] Hc].
  by rewrite Hc in Hrun.
Qed.

(** The scenario of the specification: ceiling 1; A, B and C are submitted
    in that order; A completes; C is cancelled while pending. *)
Example scheduler_scenario :
  let submitted := Scheduler.run
                     [Scheduler.Submit (Scheduler.example_request "a");
                      Scheduler.Submit (Scheduler.example_request "b");
                      Scheduler.Submit (Scheduler.example_request "c")]
                     (Scheduler.init 1) in
  let a_done := Scheduler.step (Scheduler.Completed 0) submitted in
  let c_cancelled := Scheduler.step (Scheduler.Cancel 2) a_done.1 in
  Scheduler.status <$> Scheduler.tasks submitted = [in_progress; pending; pending] ∧
  Scheduler.queue submitted = [1; 2]%nat ∧
  Scheduler.status <$> Scheduler.tasks a_done.1 = [completed; in_progress; pending] ∧
  a_done.2 = [Scheduler.StartTransfer 1] ∧
  Scheduler.status <$> Scheduler.tasks c_cancelled.1 = [completed; in_progress; cancelled] ∧
  Scheduler.queue c_cancelled.1 = [] ∧
  c_cancelled.2 = [].
Proof. split_and!; reflexivity. Qed.

(** ** The task store *)

Section task_store.
Import Scheduler.






Lemma lose_inv id s : invariant s → invariant (TaskStore.lose id s).1.
Proof.
  intros HI. unfold TaskStore.lose.
  destruct (status_of s id) as [[] |] eqn:Hid; simpl; try done.
  - destruct HI as (Hrun & Hnd & Hq).
    destruct (status_of_lookup _ _ _ Hid) as (k & Hk & Hkst).
    split; [| split]; simpl.
    + unfold running in *. simpl.
      pose proof (running_alter (set_status failed (Some TaskStore.ConnectionLost))
                    id (tasks s) k Hk) as Hc.
      rewrite (is_running_status k pending) in Hc by done.
      simpl in Hc. lia.
    + by apply NoDup_filter.
    + rewrite Forall_forall in Hq. apply Forall_forall. intros i Hi.
      apply list_elem_of_filter in Hi as [Hne Hi].
      unfold status_of in *. simpl.
      rewrite list_lookup_alter_ne by done. by apply Hq.
  - by apply finish_inv.
Qed.


Lemma lose_all_inv ids s : invariant s → invariant (TaskStore.lose_all ids s).1.
Proof.
  revert s. induction ids as [| id ids IH]; intros s HI; simpl; [done |].
  by apply IH, lose_inv.
Qed.









(** The invariant of the scheduler holds in every state of the store. *)
Lemma store_step_inv ev c :
  invariant (TaskStore.scheduler c) →
  invariant (TaskStore.scheduler (TaskStore.step ev c).1).
Proof.
  intros HI. destruct ev as [ev | p | X]; simpl.
  - by apply step_inv.
  - unfold TaskStore.onProgressSample.
    destruct (TaskStore.status_of c _) as [st |]; [| done].
    destruct (is_terminal st); [done |]. by case_decide.
  - by apply lose_all_inv.
Qed.

Lemma store_run_inv evs c :
  invariant (TaskStore.scheduler c) →
  invariant (TaskStore.scheduler (TaskStore.run evs c)).
Proof.
  revert c. induction evs as [| ev evs IH]; intros c HI; simpl; [done |].
  by apply IH, store_step_inv.
Qed.

Lemma store_reachable_inv N evs :
  invariant (TaskStore.scheduler (TaskStore.run evs (TaskStore.init N))).
Proof. apply store_run_inv, init_inv. Qed.

Lemma lose_ceiling id s : ceiling (TaskStore.lose id s).1 = ceiling s.
Proof.
  unfold TaskStore.lose, finish, promote.
  repeat (simpl; match goal with
                 | |- context [match ?x with _ => _ end] => destruct x
                 end); done.
Qed.

Lemma lose_all_ceiling ids s : ceiling (TaskStore.lose_all ids s).1 = ceiling s.
Proof.
  revert s. induction ids as [| id ids IH]; intros s; simpl; [done |].
  by rewrite IH, lose_ceiling.
Qed.

Lemma store_step_ceiling ev c :
  ceiling (TaskStore.scheduler (TaskStore.step ev c).1) = ceiling (TaskStore.scheduler c).
Proof.
  destruct ev as [ev | p | X]; simpl.
  - apply step_ceiling.
  - unfold TaskStore.onProgressSample.
    destruct (TaskStore.status_of c _) as [st |]; [| done].
    destruct (is_terminal st); [done |]. by case_decide.
  - apply lose_all_ceiling.
Qed.

(** The ceiling bounds the tasks in progress in every state of the store,
    lost connections included. *)
Lemma store_ceiling N evs :
  (running (TaskStore.scheduler (TaskStore.run evs (TaskStore.init N))) ≤ N)%nat.
Proof.
  assert (∀ c, ceiling (TaskStore.scheduler (TaskStore.run evs c))
               = ceiling (TaskStore.scheduler c)) as Hc.
  { induction evs as [| ev evs IH]; intros c; simpl; [done |].
    by rewrite IH, store_step_ceiling. }
  destruct (store_reachable_inv N evs) as [Hrun _].
  by rewrite Hc in Hrun.
Qed.











End task_store.








(** Ceiling 1; two requests for [conn-1], the first in progress and the
    second waiting, and a waiting request for [conn-2].  When [conn-1] is
    lost its two tasks fail, the waiting one without ever starting, and the
    task of [conn-2] is promoted. *)
Example connection_lost_scenario :
  let c := TaskStore.run
             [TaskStore.Schedule (Scheduler.Submit (Scheduler.example_request "a"));
              TaskStore.Schedule (Scheduler.Submit (Scheduler.example_request "b"));
              TaskStore.Schedule (Scheduler.Submit (TaskStore.download "conn-2" "c"))]
             (TaskStore.init 1) in
  let r := TaskStore.step (TaskStore.ConnectionLostEvent "conn-1") c in
  Scheduler.status <$> Scheduler.tasks (TaskStore.scheduler c)
  = [in_progress; pending; pending] ∧
  Scheduler.status <$> Scheduler.tasks (TaskStore.scheduler r.1)
  = [failed; failed; in_progress] ∧
  Scheduler.error <$> Scheduler.tasks (TaskStore.scheduler r.1)
  = [Some TaskStore.ConnectionLost; Some TaskStore.ConnectionLost; None] ∧
  Scheduler.queue (TaskStore.scheduler r.1) = [] ∧
  r.2 = [Scheduler.StartTransfer 2].
Proof. split_and!; reflexivity. Qed.



(** * Further properties *)

(** ** The session registry, continued *)

Lemma falsy_false id : id ≠ "" → falsy id = false.
Proof. intros H. by apply String.eqb_neq. Qed.

Lemma getCurrentConnection_unfold s :
  getCurrentConnection s =
  Outcome
    (Returned match current s with
              | None => None
              | Some id => if falsy id then None else registry s !! id
              end)
    s [].
Proof.
  unfold getCurrentConnection. run_m.
  destruct (current s) as [id |]; [| done]. by destruct (falsy id).
Qed.

(** X2.  After a successful [connect], [getCurrentConnection] returns the
    record just stored; the one exception is the empty identifier, which
    [getCurrentConnection] takes for "no current connection": it returns
    null although the record is stored and current. *)
Theorem connect_then_getCurrentConnection config now s :
  (∀ id, id ≠ "" →
     result (getCurrentConnection (final (connect config now (Returned id) s)))
     = Returned (Some (connection_of config now id))) ∧
  (let s' := final (connect config now (Returned "") s) in
   result (getCurrentConnection s') = Returned None ∧
   current s' = Some "" ∧
   registry s' !! "" = Some (connection_of config now "")).
Proof.
  split.
  - intros id Hid. rewrite connect_resolved, getCurrentConnection_unfold. simpl.
    by rewrite (falsy_false id Hid), lookup_insert_eq.
  - cbv zeta. rewrite connect_resolved, getCurrentConnection_unfold. simpl.
    by rewrite lookup_insert_eq.
Qed.

Lemma connect_then_getCurrentConnection_witness :
  result (getCurrentConnection (final (connect example_config 0 (Returned "conn-1") initial)))
  = Returned (Some (connection_of example_config 0 "conn-1")).
Proof.
  destruct (connect_then_getCurrentConnection example_config 0 initial) as [H _].
  apply H. discriminate.
Defined.

(** X3.  Disconnecting the current connection leaves the application
    without a current connection, even when other connections remain in
    the registry: no other connection is promoted.  Disconnecting another
    connection does not change what [getCurrentConnection] returns. *)
Theorem disconnect_has_no_fallback id s :
  let s' := final (disconnect id (Returned tt) s) in
  (current s = Some id →
     result (getCurrentConnection s') = Returned None ∧
     ∀ id', id' ≠ id → registry s' !! id' = registry s !! id') ∧
  (current s ≠ Some id →
     result (getCurrentConnection s') = result (getCurrentConnection s)).
Proof.
  cbv zeta. rewrite !getCurrentConnection_unfold, disconnect_resolved. simpl.
  split.
  - intros Hcur. rewrite decide_True by done. split; [done |].
    intros id' Hne. by rewrite lookup_delete_ne.
  - intros Hcur. rewrite decide_False by done.
    destruct (current s) as [cur |]; [| done].
    destruct (falsy cur); [done |].
    rewrite lookup_delete_ne; [done | congruence].
Qed.

Lemma disconnect_has_no_fallback_witness :
  let s := final (connect example_config 5 (Returned "conn-2") one_connection) in
  (result (getCurrentConnection (final (disconnect "conn-2" (Returned tt) s))) = Returned None ∧
   ∀ id', id' ≠ "conn-2" →
     registry (final (disconnect "conn-2" (Returned tt) s)) !! id' = registry s !! id') ∧
  result (getCurrentConnection (final (disconnect "conn-1" (Returned tt) s)))
  = result (getCurrentConnection s).
Proof.
  split.
  - apply (disconnect_has_no_fallback "conn-2"). reflexivity.
  - apply (disconnect_has_no_fallback "conn-1"). discriminate.
Defined.

(** X4.  [setCurrentConnection] on a registered identifier makes that
    connection the one [getCurrentConnection] returns (the empty
    identifier apart) and leaves the registry's records as they are. *)
Theorem setCurrentConnection_selects id c s :
  registry s !! id = Some c →
  id ≠ "" →
  let s' := final (setCurrentConnection id s) in
  result (getCurrentConnection s') = Returned (Some c) ∧
  registry s' = registry s ∧
  transferQueueManager s' = transferQueueManager s.
Proof.
  intros Hc Hid. cbv zeta. rewrite getCurrentConnection_unfold.
  unfold setCurrentConnection. run_m.
  rewrite bool_decide_eq_true_2 by (by rewrite Hc). simpl.
  by rewrite (falsy_false id Hid), Hc.
Qed.

Lemma setCurrentConnection_selects_witness :
  let s := final (connect example_config 5 (Returned "conn-2") one_connection) in
  result (getCurrentConnection (final (setCurrentConnection "conn-1" s)))
  = Returned (Some (connection_of example_config 0 "conn-1")) ∧
  registry (final (setCurrentConnection "conn-1" s)) = registry s ∧
  transferQueueManager (final (setCurrentConnection "conn-1" s)) = transferQueueManager s.
Proof.
  apply setCurrentConnection_selects; [reflexivity | discriminate].
Defined.

(** X5.  A [connect] under a fresh identifier followed by an acknowledged
    [disconnect] of that identifier gives back the registry's records, but
    not the connection that was current before: the pointer ends null. *)
Theorem connect_then_disconnect config now id s :
  registry s !! id = None →
  let s' := final (disconnect id (Returned tt)
                     (final (connect config now (Returned id) s))) in
  registry s' = registry s ∧ current s' = None.
Proof.
  intros Hfresh. rewrite connect_resolved, disconnect_resolved. simpl.
  rewrite decide_True by done. split; [| done].
  by rewrite delete_insert_eq, delete_id.
Qed.

Lemma connect_then_disconnect_witness :
  let s' := final (disconnect "conn-2" (Returned tt)
                     (final (connect example_config 5 (Returned "conn-2") one_connection))) in
  registry s' = registry one_connection ∧ current s' = None ∧
  current one_connection = Some "conn-1".
Proof.
  destruct (connect_then_disconnect example_config 5 "conn-2" one_connection) as [H1 H2];
    [reflexivity |].
  split; [exact H1 | split; [exact H2 | reflexivity]].
Defined.

(** What a step can do to the registry: keep a record, or store the one a
    successful [connect] builds. *)
Lemma step_registry o s k c :
  registry (step o s) !! k = Some c →
  registry s !! k = Some c ∨
  ∃ config now, o = Connect config now (Returned k) ∧ c = connection_of config now k.
Proof.
  destruct o; unfold step, exec, observe, fst;
    try (intros H; left; revert H; try destruct reply; simpl; branch; done).
  - (* ssh-disconnected *)
    simpl. intros H. apply lookup_delete_Some in H. tauto.
  - (* connect *)
    destruct reply as [id | e]; [| by left].
    rewrite connect_resolved. simpl. intros H.
    apply lookup_insert_Some in H as [[<- <-] | [_ H]]; [| by left].
    right. by exists config, now.
  - (* disconnect *)
    destruct reply as [[] | e]; [| by left].
    rewrite disconnect_resolved. simpl. intros H.
    apply lookup_delete_Some in H. tauto.
  - (* dragstart *)
    destruct (handleDragStart_frame target dataTransfer s) as [-> _]. by left.
  - (* drop *)
    destruct (handleDrop_frame target reply s) as [-> _]. by left.
  - (* the continuation of a drop *)
    destruct (initiateTransfer_frame data destPane direction reply s) as [-> _]. by left.
Qed.

(** X6.  In every state the application reaches, a record of the registry
    is stored under its own identifier and is marked connected: the
    [connected] flag of a stored record is never cleared, a connection
    that goes away is removed instead. *)
Theorem registry_records_are_keyed_and_connected ops k c :
  registry (run ops initial) !! k = Some c →
  SSHConnection.id c = k ∧ SSHConnection.connected c = true.
Proof.
  assert (∀ s, (∀ k c, registry s !! k = Some c →
                  SSHConnection.id c = k ∧ SSHConnection.connected c = true) →
          ∀ k c, registry (run ops s) !! k = Some c →
                  SSHConnection.id c = k ∧ SSHConnection.connected c = true) as Hrun.
  { induction ops as [| o ops IH]; intros s Hs; simpl; [done |].
    apply IH. intros k' c' H.
    apply step_registry in H as [H | (config & now & _ & ->)]; [by apply Hs | done]. }
  apply Hrun. intros k' c' H. unfold initial in H. simpl in H.
  by rewrite lookup_empty in H.
Qed.

Lemma registry_records_are_keyed_and_connected_witness :
  SSHConnection.id (connection_of example_config 0 "conn-1") = "conn-1" ∧
  SSHConnection.connected (connection_of example_config 0 "conn-1") = true.
Proof.
  apply (registry_records_are_keyed_and_connected
           [Connect example_config 0 (Returned "conn-1");
            SshDisconnected "conn-7";
            Connect example_config 3 (Returned "conn-2")] "conn-1").
  reflexivity.
Defined.

(** ** Completion and exception safety *)

Lemma initiateTransfer_returns data destPane direction reply s :
  result (initiateTransfer data destPane direction reply s) = Returned tt.
Proof.
  unfold initiateTransfer. run_m.
  destruct (getDestinationPath _ _) as [p |]; simpl; [| done].
  destruct (falsy p); simpl; [done |].
  by destruct reply.
Qed.

Lemma handleDrop_returns target reply s :
  result (handleDrop target reply s) = Returned tt.
Proof.
  unfold handleDrop. cbv [mbind M_bind bind emit gets result final effects mret M_ret ret].
  destruct (dragData (dragDropHandler s)) as [d |]; [| done].
  case_decide; [done |].
  destruct (getTransferDirection _ _); [| done].
  pose proof (initiateTransfer_returns d (getPaneId target) d0 reply s) as Hret.
  unfold result in Hret. by rewrite Hret.
Qed.

Lemma failure_is_rejection o s :
  is_method o = true → failure o s = rejection o.
Proof.
  destruct o; try discriminate; intros _; unfold failure, rejection, thrown;
    rewrite ?getCurrentConnection_unfold;
    try destruct reply as [v | e]; simpl; try done.
  by case_bool_decide.
Qed.

(** X7.  Of the public methods of the two managers only [connect],
    [disconnect], [createTransferTask], [cancelTransfer] and
    [retryTransfer] can throw, they throw exactly when the backend rejects
    their command, and what they throw is the backend's rejection; the
    queries ([isConnected], [listConnections], [getTransferProgress],
    [getActiveTransfers], [getCurrentConnection]), [setCurrentConnection]
    and the subscriptions never throw, whatever the backend answers. *)
Theorem only_forwarding_calls_throw o s e :
  is_method o = true ∧ failure o s = Some e ↔
  (∃ config now, o = Connect config now (Thrown e)) ∨
  (∃ id, o = Disconnect id (Thrown e)) ∨
  (∃ src dst dir, o = CreateTransferTask src dst dir (Thrown e)) ∨
  (∃ id, o = CancelTransfer id (Thrown e)) ∨
  (∃ id, o = RetryTransfer id (Thrown e)).
Proof.
  split.
  - intros [Hm Hf]. rewrite (failure_is_rejection o s Hm) in Hf.
    destruct o; simpl in *; try done; destruct reply as [v | e']; try done;
      injection Hf as ->; eauto 10.
  - intros [(? & ? & ->) | [(? & ->) | [(? & ? & ? & ->) | [(? & ->) | (? & ->)]]]];
      done.
Qed.

(** X8.  A method of the managers that throws has changed nothing: the
    application state is the state before the call; exactly one backend
    command was sent and the error was logged once with [console.error]. *)
Theorem failed_operation_changes_nothing o s e :
  is_method o = true →
  failure o s = Some e →
  step o s = s ∧
  ∃ cmd args msg, (exec o s).2 = [Invoke cmd args; ConsoleError msg [JStr e]].
Proof.
  intros Hm. rewrite (failure_is_rejection o s Hm).
  destruct o; simpl; try done; destruct reply as [v | e']; try done;
    intros [= ->]; (split; [done | eauto]).
Qed.

Lemma failed_operation_changes_nothing_witness :
  step (CancelTransfer "T" (Thrown "busy")) subscribed = subscribed ∧
  ∃ cmd args msg,
    (exec (CancelTransfer "T" (Thrown "busy")) subscribed).2
    = [Invoke cmd args; ConsoleError msg [JStr "busy"]].
Proof.
  apply failed_operation_changes_nothing; reflexivity.
Defined.

(** X23.  The handlers of the drag events throw only for want of what a
    user's drag always brings.  [handleDragStart] throws a [TypeError] on
    a text-node target, before it has done anything; on a file item with
    a path and a file name but without [dataTransfer] it throws after it
    has recorded the drag data, and adds no visual feedback: a drop that
    follows still finds the data.  [handleDragOver] throws without
    [dataTransfer], after preventing the default.  With an element target
    and [dataTransfer] neither throws, and [handleDragEnd],
    [handleDragEnter], [handleDragLeave], [handleDrop] and
    [initiateTransfer] never throw. *)
Theorem drag_handlers_need_dataTransfer s :
  (∀ dataTransfer,
     handleDragStart TextNode dataTransfer s = Outcome (Thrown TypeError) s []) ∧
  (∀ fileItem d, extractDragData fileItem = Some d →
     let o := handleDragStart (ElementNode (Some fileItem)) false s in
     result o = Thrown TypeError ∧
     dragData (dragDropHandler (final o)) = Some d ∧
     isDragging (dragDropHandler (final o)) = true ∧
     effects o = []) ∧
  handleDragOver false s = Outcome (Thrown TypeError) s [PreventDefault] ∧
  (∀ fileItem, thrown (handleDragStart (ElementNode fileItem) true s) = None) ∧
  thrown (handleDragOver true s) = None ∧
  thrown (handleDragEnd s) = None ∧
  (∀ target, thrown (handleDragEnter target s) = None ∧
             thrown (handleDragLeave target s) = None) ∧
  (∀ target reply, thrown (handleDrop target reply s) = None) ∧
  (∀ data destPane direction reply,
     thrown (initiateTransfer data destPane direction reply s) = None).
Proof.
  split_and!; try done.
  - intros fileItem d Hd. cbv zeta. unfold handleDragStart. rewrite Hd. done.
  - intros [fileItem |]; [| done].
    unfold thrown. by rewrite handleDragStart_unfold.
  - intros target reply. unfold thrown. by rewrite handleDrop_returns.
  - intros data destPane direction reply. unfold thrown.
    by rewrite initiateTransfer_returns.
Qed.

Lemma drag_handlers_need_dataTransfer_witness :
  let item := example_file "windows-content-pane" (Some "C:\data\a.bin") (Some "a.bin") in
  let o := handleDragStart (ElementNode (Some item)) false initial in
  result o = Thrown TypeError ∧
  isDragging (dragDropHandler (final o)) = true ∧
  backend_calls (effects (handleDrop (Some "linux-content-pane") (Returned "task-1") (final o)))
  = ["create_transfer_task"].
Proof.
  destruct (drag_handlers_need_dataTransfer initial) as (_ & H & _).
  destruct (H (example_file "windows-content-pane" (Some "C:\data\a.bin") (Some "a.bin"))
              {| DragDropData.sourcePane := "windows-content-pane";
                 DragDropData.destPane := "";
                 DragDropData.sourcePath := "C:\data\a.bin";
                 DragDropData.destPath := "";
                 DragDropData.filename := "a.bin";
                 DragDropData.isDirectory := false |} eq_refl) as (Hr & _ & Hd & _).
  split; [exact Hr | split; [exact Hd | reflexivity]].
Defined.

(** ** The transfer manager, continued *)

(** X9.  A progress sample is delivered to the callback registered last
    for the sample's task, once, and to no other callback: registering a
    callback for one task does not change what a sample of another task
    calls, and after [removeProgressCallback] a sample calls nothing. *)
Theorem progress_reaches_its_subscriber id cb p s :
  (TransferProgress.taskId p = id →
     callback_calls (effects (handleTransferProgress p (final (onProgress id cb s))))
     = [(cb, p)] ∧
     callback_calls (effects (handleTransferProgress p (final (removeProgressCallback id s))))
     = []) ∧
  (TransferProgress.taskId p ≠ id →
     callback_calls (effects (handleTransferProgress p (final (onProgress id cb s))))
     = callback_calls (effects (handleTransferProgress p s)) ∧
     callback_calls (effects (handleTransferProgress p (final (removeProgressCallback id s))))
     = callback_calls (effects (handleTransferProgress p s))).
Proof.
  rewrite !handleTransferProgress_unfold. simpl. split.
  - intros ->. by rewrite lookup_insert_eq, lookup_delete_eq.
  - intros Hne. by rewrite lookup_insert_ne, lookup_delete_ne.
Qed.

Lemma progress_reaches_its_subscriber_witness :
  (callback_calls (effects (handleTransferProgress (example_sample "T" 700)
                              (final (onProgress "T" (Observer 2) subscribed))))
   = [(Observer 2, example_sample "T" 700)] ∧
   callback_calls (effects (handleTransferProgress (example_sample "T" 700)
                              (final (removeProgressCallback "T" subscribed))))
   = []) ∧
  (callback_calls (effects (handleTransferProgress (example_sample "T" 700)
                              (final (onProgress "U" (Observer 2) subscribed))))
   = callback_calls (effects (handleTransferProgress (example_sample "T" 700) subscribed)) ∧
   callback_calls (effects (handleTransferProgress (example_sample "T" 700)
                              (final (removeProgressCallback "U" subscribed))))
   = callback_calls (effects (handleTransferProgress (example_sample "T" 700) subscribed))).
Proof.
  split.
  - apply (progress_reaches_its_subscriber "T"). reflexivity.
  - apply (progress_reaches_its_subscriber "U"). discriminate.
Defined.

(** X10.  A sample that arrives after its task's terminal event is not
    discarded: it is logged and written to the progress bars and the
    status bar like any other, only no callback is left to call.  After
    an acknowledged [cancelTransfer], which leaves the subscription in
    place, the sample still reaches the task's callback. *)
Theorem samples_after_the_task_ended p s :
  let id := TransferProgress.taskId p in
  let shown := [ConsoleLog "Transfer progress:" [JProgress p];
                SetProgressBars (TransferProgress.percentage p);
                SetStatusBar (TransferProgress.filename p)
                             (TransferProgress.percentage p)] in
  effects (handleTransferProgress p (final (handleTransferCompleted id s))) = shown ∧
  (∀ error,
     effects (handleTransferProgress p (final (handleTransferFailed id error s))) = shown) ∧
  effects (handleTransferProgress p (final (cancelTransfer id (Returned tt) s)))
  = effects (handleTransferProgress p s).
Proof.
  cbv zeta. rewrite !handleTransferProgress_unfold, cancelTransfer_resolved. simpl.
  rewrite lookup_delete_eq. split_and!; try done.
Qed.

(** ** The drag-and-drop translator, continued *)

(** X11.  The direction of a drop follows the sides the two panes name:
    from a Windows pane to a Linux pane it is [windows_to_linux] and the
    destination is under [/home/user/]; from a Linux pane to a Windows
    pane it is [linux_to_windows] and the destination is under
    [C:\Users\User\]; between two panes of the same side there is no
    direction. *)
Theorem direction_and_destination_agree src dst filename :
  (windows_side src → linux_side dst →
     getTransferDirection src dst = Some windows_to_linux ∧
     getDestinationPath dst filename = Some ("/home/user/" +:+ filename)) ∧
  (linux_side src → windows_side dst →
     getTransferDirection src dst = Some linux_to_windows ∧
     getDestinationPath dst filename = Some ("C:\Users\User\" +:+ filename)) ∧
  (windows_side src → windows_side dst → getTransferDirection src dst = None) ∧
  (linux_side src → linux_side dst → getTransferDirection src dst = None).
Proof.
  unfold windows_side, linux_side, getTransferDirection, getDestinationPath.
  split_and!; intros [-> ->] [-> ->]; done.
Qed.

Lemma direction_and_destination_agree_witness :
  (getTransferDirection "windows-content-pane" "linux-tree-pane" = Some windows_to_linux ∧
   getDestinationPath "linux-tree-pane" "a.bin" = Some "/home/user/a.bin") ∧
  (getTransferDirection "linux-content-pane" "windows-tree-pane" = Some linux_to_windows ∧
   getDestinationPath "windows-tree-pane" "a.bin" = Some "C:\Users\User\a.bin") ∧
  getTransferDirection "windows-tree-pane" "windows-content-pane" = None ∧
  getTransferDirection "linux-tree-pane" "linux-content-pane" = None.
Proof.
  split; [| split; [| split]].
  - apply (direction_and_destination_agree "windows-content-pane" "linux-tree-pane" "a.bin");
      split; reflexivity.
  - apply (direction_and_destination_agree "linux-content-pane" "windows-tree-pane" "a.bin");
      split; reflexivity.
  - destruct (direction_and_destination_agree "windows-tree-pane" "windows-content-pane" "a.bin")
      as (_ & _ & Hww & _).
    apply Hww; split; reflexivity.
  - destruct (direction_and_destination_agree "linux-tree-pane" "linux-content-pane" "a.bin")
      as (_ & _ & _ & Hll).
    apply Hll; split; reflexivity.
Defined.

(** Whenever a drop has a direction, its destination path is determined
    and is not empty. *)
Lemma direction_gives_destination src dst dir filename :
  getTransferDirection src dst = Some dir →
  ∃ p, getDestinationPath dst filename = Some p ∧ falsy p = false.
Proof.
  unfold getTransferDirection, getDestinationPath.
  destruct (includes src "windows" && includes dst "linux") eqn:Hwl.
  - apply andb_true_iff in Hwl as [_ ->]. intros _. by eexists.
  - destruct (includes src "linux" && includes dst "windows") eqn:Hlw; [| done].
    apply andb_true_iff in Hlw as [_ ->]. intros _.
    destruct (includes dst "linux"); by eexists.
Qed.

Lemma initiateTransfer_resolved data destPane direction taskId destPath s :
  getDestinationPath destPane (DragDropData.filename data) = Some destPath →
  falsy destPath = false →
  initiateTransfer data destPane direction (Returned taskId) s =
  Outcome (Returned tt)
    (with_queue (λ q,
       {| activeTransfers := activeTransfers q;
          progressCallbacks := <[taskId := UpdateContainer taskId]> (progressCallbacks q) |}) s)
    [Invoke "create_transfer_task"
       [("sourcePath", JStr (DragDropData.sourcePath data));
        ("destPath", JStr destPath);
        ("direction", JStr (direction_string direction))];
     ConsoleLog "Transfer task created:" [JStr taskId];
     ConsoleLog "Transfer initiated:" [JStr taskId];
     ShowTransferProgress taskId (DragDropData.filename data)].
Proof.
  intros Hp Hne. unfold initiateTransfer. rewrite Hp, Hne. reflexivity.
Qed.

Lemma initiateTransfer_rejected data destPane direction e destPath s :
  getDestinationPath destPane (DragDropData.filename data) = Some destPath →
  falsy destPath = false →
  initiateTransfer data destPane direction (Thrown e) s =
  Outcome (Returned tt) s
    [Invoke "create_transfer_task"
       [("sourcePath", JStr (DragDropData.sourcePath data));
        ("destPath", JStr destPath);
        ("direction", JStr (direction_string direction))];
     ConsoleError "Failed to create transfer task:" [JStr e];
     ConsoleError "Failed to initiate transfer:" [JStr e];
     ShowError ("Transfer failed: " +:+ e)].
Proof.
  intros Hp Hne. unfold initiateTransfer. rewrite Hp, Hne. reflexivity.
Qed.

Lemma handleDrop_accepted target reply s d dir :
  dragData (dragDropHandler s) = Some d →
  DragDropData.sourcePane d ≠ getPaneId target →
  getTransferDirection (DragDropData.sourcePane d) (getPaneId target) = Some dir →
  handleDrop target reply s =
  let o := initiateTransfer d (getPaneId target) dir reply s in
  Outcome (result o) (final o)
    ([PreventDefault; ClassRemove (getPaneId target) "drag-over"] ++ effects o).
Proof.
  intros Hd Hne Hdir. unfold handleDrop.
  cbv [mbind M_bind bind emit gets result final effects].
  rewrite Hd. rewrite decide_False by done. rewrite Hdir.
  by destruct (initiateTransfer d (getPaneId target) dir reply s).
Qed.

Lemma handleDrop_no_direction target reply s d :
  dragData (dragDropHandler s) = Some d →
  DragDropData.sourcePane d ≠ getPaneId target →
  getTransferDirection (DragDropData.sourcePane d) (getPaneId target) = None →
  handleDrop target reply s =
  Outcome (Returned tt) s [PreventDefault; ClassRemove (getPaneId target) "drag-over"].
Proof.
  intros Hd Hne Hdir. unfold handleDrop.
  cbv [mbind M_bind bind emit gets result final effects mret M_ret ret].
  rewrite Hd. rewrite decide_False by done. by rewrite Hdir.
Qed.

(** Membership in an explicit list of effects. *)
Ltac among :=
  repeat first [apply list_elem_of_here | apply list_elem_of_further].

Ltac not_among :=
  let H := fresh "Hin" in
  intros H;
  repeat (apply elem_of_cons in H as [H | H]; [discriminate H |]);
  by apply elem_of_nil in H.

Lemma extractDragData_valid fileItem path filename :
  FileItem.path fileItem = Some path → path ≠ "" →
  FileItem.filename fileItem = Some filename → filename ≠ "" →
  extractDragData fileItem =
  Some {| DragDropData.sourcePane := FileItem.paneId fileItem;
          DragDropData.destPane := "";
          DragDropData.sourcePath := path;
          DragDropData.destPath := "";
          DragDropData.filename := filename;
          DragDropData.isDirectory :=
            bool_decide (FileItem.isDirectory fileItem = Some "true") |}.
Proof.
  intros Hp Hpne Hf Hfne. unfold extractDragData. rewrite Hp, Hf. simpl.
  by rewrite (falsy_false path Hpne), (falsy_false filename Hfne).
Qed.

(** X12.  A gesture that drags a file item with a path and a file name to
    a different pane for which there is a direction sends exactly one
    backend command, [create_transfer_task], carrying the item's path as
    source, the destination path built from the item's file name, and the
    direction.  When the backend answers with a task identifier, the
    progress container of that task is subscribed under it; when the
    backend refuses, the error is shown and the transfer manager is
    unchanged.  Either way the handler returns normally. *)
Theorem gesture_sends_item_to_backend fileItem target reply s path filename dir :
  FileItem.path fileItem = Some path → path ≠ "" →
  FileItem.filename fileItem = Some filename → filename ≠ "" →
  FileItem.paneId fileItem ≠ getPaneId target →
  getTransferDirection (FileItem.paneId fileItem) (getPaneId target) = Some dir →
  ∃ destPath,
    getDestinationPath (getPaneId target) filename = Some destPath ∧
    let o := gesture fileItem target reply s in
    result o = Returned tt ∧
    invocations (effects o)
    = [Invoke "create_transfer_task"
         [("sourcePath", JStr path);
          ("destPath", JStr destPath);
          ("direction", JStr (direction_string dir))]] ∧
    match reply with
    | Returned taskId =>
        observers (final o) = <[taskId := UpdateContainer taskId]> (observers s) ∧
        tasks (final o) = tasks s ∧
        ShowTransferProgress taskId filename ∈ effects o
    | Thrown e =>
        transferQueueManager (final o) = transferQueueManager s ∧
        ShowError ("Transfer failed: " +:+ e) ∈ effects o
    end.
Proof.
  intros Hp Hpne Hf Hfne Hpane Hdir.
  destruct (direction_gives_destination _ _ _ filename Hdir) as (destPath & Hdest & Hne).
  exists destPath. split; [done |].
  unfold gesture. cbv [mbind M_bind bind].
  rewrite handleDragStart_unfold.
  rewrite (extractDragData_valid fileItem path filename) by done.
  cbv [result final effects].
  erewrite handleDrop_accepted; [| reflexivity | done | done].
  simpl. destruct reply as [taskId | e].
  - rewrite initiateTransfer_resolved with (destPath := destPath) by done.
    simpl. split_and!; try done. among.
  - rewrite initiateTransfer_rejected with (destPath := destPath) by done.
    simpl. split_and!; try done. among.
Qed.

Lemma gesture_sends_item_to_backend_witness :
  ∃ destPath,
    getDestinationPath (getPaneId (Some "linux-content-pane")) "a.bin" = Some destPath ∧
    let o := gesture (example_file "windows-content-pane" (Some "C:\data\a.bin") (Some "a.bin"))
               (Some "linux-content-pane") (Returned "task-1") initial in
    result o = Returned tt ∧
    invocations (effects o)
    = [Invoke "create_transfer_task"
         [("sourcePath", JStr "C:\data\a.bin");
          ("destPath", JStr destPath);
          ("direction", JStr (direction_string windows_to_linux))]] ∧
    (observers (final o) = <["task-1" := UpdateContainer "task-1"]> (observers initial) ∧
     tasks (final o) = tasks initial ∧
     ShowTransferProgress "task-1" "a.bin" ∈ effects o).
Proof.
  apply (gesture_sends_item_to_backend
           (example_file "windows-content-pane" (Some "C:\data\a.bin") (Some "a.bin"))
           (Some "linux-content-pane") (Returned "task-1") initial
           "C:\data\a.bin" "a.bin" windows_to_linux);
    solve [reflexivity | discriminate].
Defined.

(** X13.  A drop between two different panes that give no direction (two
    panes of the same side, or a pane naming neither side) is ignored
    without a trace: the handler clears the drop highlight and returns;
    nothing is logged, no command is sent and the state is unchanged. *)
Theorem undirected_drop_is_silent target reply s d :
  dragData (dragDropHandler s) = Some d →
  DragDropData.sourcePane d ≠ getPaneId target →
  getTransferDirection (DragDropData.sourcePane d) (getPaneId target) = None →
  let o := handleDrop target reply s in
  result o = Returned tt ∧
  final o = s ∧
  effects o = [PreventDefault; ClassRemove (getPaneId target) "drag-over"].
Proof.
  intros Hd Hne Hdir. cbv zeta. by rewrite (handleDrop_no_direction _ _ _ d).
Qed.

Lemma undirected_drop_is_silent_witness :
  let s := final (handleDragStart
                    (ElementNode
                       (Some (example_file "windows-tree-pane" (Some "C:\data") (Some "data"))))
                    true initial) in
  let o := handleDrop (Some "windows-content-pane") (Returned "task-1") s in
  result o = Returned tt ∧
  final o = s ∧
  effects o = [PreventDefault; ClassRemove "windows-content-pane" "drag-over"].
Proof.
  eapply undirected_drop_is_silent; [reflexivity | discriminate | reflexivity].
Defined.

(** X14.  [handleDrop] never reports [Could not determine destination
    path]: whenever it starts a transfer the destination pane has given a
    direction, and such a pane always gives a destination path. *)
Theorem handleDrop_always_finds_destination target reply s :
  ConsoleError "Could not determine destination path" []
  ∉ effects (handleDrop target reply s).
Proof.
  destruct (dragData (dragDropHandler s)) as [d |] eqn:Hd;
    [| rewrite handleDrop_no_data by done; simpl; not_among].
  destruct (decide (DragDropData.sourcePane d = getPaneId target)) as [Hsame | Hne];
    [rewrite (handleDrop_same_pane _ _ _ d) by done; simpl; not_among |].
  destruct (getTransferDirection (DragDropData.sourcePane d) (getPaneId target))
    as [dir |] eqn:Hdir;
    [| rewrite (handleDrop_no_direction _ _ _ d) by done; simpl; not_among].
  destruct (direction_gives_destination _ _ _ (DragDropData.filename d) Hdir)
    as (destPath & Hdest & Hfalsy).
  rewrite (handleDrop_accepted _ _ _ d dir) by done. simpl.
  destruct reply as [taskId | e].
  - rewrite initiateTransfer_resolved with (destPath := destPath) by done.
    simpl. not_among.
  - rewrite initiateTransfer_rejected with (destPath := destPath) by done.
    simpl. not_among.
Qed.

(** X15.  Drag data lives from [dragstart] to [dragend]: a drop does not
    consume it (the handler's own state is the same after any drop), a
    [dragstart] outside a file item leaves the state as it is, and after
    [dragend] a drop sends nothing and changes nothing. *)
Theorem drag_data_lives_until_dragend target reply s :
  dragDropHandler (final (handleDrop target reply s)) = dragDropHandler s ∧
  (∀ dataTransfer, final (handleDragStart (ElementNode None) dataTransfer s) = s) ∧
  (let s' := final (handleDragEnd s) in
   dragData (dragDropHandler s') = None ∧
   final (handleDrop target reply s') = s' ∧
   backend_calls (effects (handleDrop target reply s')) = []).
Proof.
  split_and!; try done.
  unfold handleDrop.
  cbv [mbind M_bind bind emit gets result final effects mret M_ret ret].
    destruct (dragData (dragDropHandler s)) as [d |]; [| done].
    case_decide; [done |].
    destruct (getTransferDirection _ _) as [dir |]; [| done].
    assert (dragDropHandler (final (initiateTransfer d (getPaneId target) dir reply s))
            = dragDropHandler s) as Hframe.
    { unfold initiateTransfer. run_m.
      destruct (getDestinationPath _ _) as [p |]; simpl; [| done].
      destruct (falsy p); simpl; [done |]. by destruct reply. }
    unfold final in Hframe.
    by destruct (initiateTransfer d (getPaneId target) dir reply s).
Qed.

(** ** The resizer *)

Section resizer.
Import Resizer.

Lemma addEventListener_fresh f listeners :
  Forall (λ g, (g < f)%nat) listeners →
  addEventListener f listeners = listeners ++ [f].
Proof.
  intros Hlt. unfold addEventListener. case_decide as Hin; [| done].
  rewrite Forall_forall in Hlt. apply Hlt in Hin. lia.
Qed.

Lemma removeEventListener_fresh f listeners :
  Forall (λ g, (g < f)%nat) listeners →
  removeEventListener f listeners = listeners.
Proof.
  intros Hlt. unfold removeEventListener.
  induction listeners as [| g listeners IH]; [done |].
  apply Forall_cons in Hlt as [Hg Hlt].
  rewrite filter_cons_True by lia. by rewrite IH.
Qed.

Lemma Forall_lt_weaken (n m : nat) (l : list nat) :
  (n ≤ m)%nat → Forall (λ f, (f < n)%nat) l → Forall (λ f, (f < m)%nat) l.
Proof.
  intros Hle Hl. eapply Forall_impl; [exact Hl |]. simpl. intros f Hf. lia.
Qed.

(** A release finds nothing to remove. *)
Lemma handleMouseUp_keeps_listeners r :
  listeners_known r →
  mousemove (handleMouseUp r) = mousemove r ∧
  mouseup (handleMouseUp r) = mouseup r ∧
  listeners_known (handleMouseUp r).
Proof.
  intros [Hmove Hup]. unfold listeners_known, handleMouseUp. simpl.
  rewrite !removeEventListener_fresh;
    [| by apply (Forall_lt_weaken (bound r)); [lia |] | done].
  split_and!; try done.
  - apply (Forall_lt_weaken (bound r)); [lia | done].
  - apply (Forall_lt_weaken (bound r)); [lia | done].
Qed.

Lemma dispatch_mouseup_keeps_listeners snapshot r :
  listeners_known r →
  let r' := dispatch_mouseup snapshot r in
  mousemove r' = mousemove r ∧ mouseup r' = mouseup r ∧ listeners_known r' ∧
  (isResizing r' = false ∨ (isResizing r' = isResizing r ∧ Forall (λ f, f ∉ mouseup r) snapshot)).
Proof.
  revert r. induction snapshot as [| f snapshot IH]; intros r Hr; simpl.
  - split_and!; try done. right. split; [done | apply Forall_nil_2].
  - case_decide as Hin.
    + destruct (handleMouseUp_keeps_listeners r Hr) as (Hm & Hu & Hk).
      destruct (IH (handleMouseUp r) Hk) as (Hm' & Hu' & Hk' & Hres).
      rewrite Hm', Hu', Hm, Hu. split_and!; try done.
      left. destruct Hres as [Hres | [Hres _]]; [done |]. by rewrite Hres.
    + destruct (IH r Hr) as (Hm' & Hu' & Hk' & Hres).
      split_and!; try done.
      destruct Hres as [Hres | [Hres Hall]]; [by left |].
      right. split; [done |]. by apply Forall_cons.
Qed.

Lemma step_listeners ev r :
  listeners_known r →
  listeners_known (step ev r).1 ∧
  length (mousemove (step ev r).1)
  = (length (mousemove r) + match ev with MouseDown _ => 1 | _ => 0 end)%nat ∧
  length (mouseup (step ev r).1)
  = (length (mouseup r) + match ev with MouseDown _ => 1 | _ => 0 end)%nat.
Proof.
  intros [Hmove Hup]. destruct ev as [e | e |]; simpl.
  - unfold listeners_known, startResize. simpl.
    rewrite !addEventListener_fresh;
      [| by apply (Forall_lt_weaken (bound r)); [lia |] | done].
    rewrite !length_app. simpl. split_and!; try done.
    + apply Forall_app. split; [| apply Forall_singleton; lia].
      apply (Forall_lt_weaken (bound r)); [lia | done].
    + apply Forall_app. split; [| apply Forall_singleton; lia].
      apply (Forall_lt_weaken (bound r)); [lia | done].
  - split_and!; [done | lia | lia].
  - destruct (dispatch_mouseup_keeps_listeners (mouseup r) r) as (Hm & Hu & Hk & _);
      [done |].
    simpl in *. rewrite Hm, Hu. split_and!; [done | lia | lia].
Qed.

Lemma presses_cons ev evs :
  presses (ev :: evs)
  = (match ev with MouseDown _ => 1 | _ => 0 end + presses evs)%nat.
Proof. by destruct ev. Qed.

Lemma presses_snoc evs e : presses (evs ++ [MouseDown e]) = S (presses evs).
Proof.
  induction evs as [| ev evs IH]; [done |].
  rewrite <- app_comm_cons, !presses_cons, IH. lia.
Qed.

Lemma run_listeners evs r :
  listeners_known r →
  listeners_known (run evs r) ∧
  length (mousemove (run evs r)) = (length (mousemove r) + presses evs)%nat ∧
  length (mouseup (run evs r)) = (length (mouseup r) + presses evs)%nat.
Proof.
  revert r. induction evs as [| ev evs IH]; intros r Hr; simpl.
  - unfold presses. simpl. split_and!; [done | lia | lia].
  - destruct (step_listeners ev r Hr) as (Hk & Hm & Hu).
    destruct (IH _ Hk) as (Hk' & Hm' & Hu').
    split; [done |]. rewrite Hm', Hu', Hm, Hu, presses_cons. lia.
Qed.

Lemma init_listeners_known : listeners_known init.
Proof. split; apply Forall_nil_2. Qed.

Lemma dispatch_mousemove_logs e r :
  dispatch_mousemove e r =
  if isResizing r then
    replicate (length (mousemove r))
      (Resizing (clientX e - startX r) (clientY e - startY r))
  else [].
Proof.
  unfold dispatch_mousemove, handleMouseMove.
  destruct (isResizing r); induction (mousemove r) as [| f l IH]; csimpl; try done.
  by f_equal.
Qed.

(** X16.  The resizer never removes a document listener: [handleMouseUp]
    asks the document to remove functions it has just bound, which were
    never registered.  After any sequence of presses, moves and releases
    the document holds one [mousemove] and one [mouseup] listener for
    every press so far. *)
Theorem listeners_pile_up evs :
  let r := run evs init in
  length (mousemove r) = presses evs ∧ length (mouseup r) = presses evs.
Proof.
  destruct (run_listeners evs init init_listeners_known) as (_ & Hm & Hu).
  simpl in *. by rewrite Hm, Hu.
Qed.

Lemma run_app evs evs' r : run (evs ++ evs') r = run evs' (run evs r).
Proof. revert r. induction evs as [| ev evs IH]; intros r; simpl; [done |]. apply IH. Qed.

(** A release ends the resize. *)
Lemma release_ends_resize r :
  listeners_known r → mouseup r ≠ [] →
  isResizing (step MouseUp r).1 = false.
Proof.
  intros Hr Hne. simpl.
  destruct (dispatch_mouseup_keeps_listeners (mouseup r) r Hr) as (_ & _ & _ & Hres).
  destruct Hres as [Hres | [_ Hall]]; [done |].
  destruct (mouseup r) as [| f l]; [done |].
  apply Forall_cons in Hall as [Hf _]. exfalso. apply Hf. apply list_elem_of_here.
Qed.

(** X17.  While a resize is under way, one mouse move is logged once for
    every resize started so far, each time with the distance from the
    point of the latest press; after the release a move logs nothing. *)
Theorem move_is_logged_once_per_press evs e e' :
  let r := run (evs ++ [MouseDown e]) init in
  (step (MouseMove e') r).2
  = replicate (S (presses evs))
      (Resizing (clientX e' - clientX e) (clientY e' - clientY e)) ∧
  (step (MouseMove e') (step MouseUp r).1).2 = [].
Proof.
  cbv zeta.
  destruct (run_listeners (evs ++ [MouseDown e]) init init_listeners_known)
    as (Hk & Hm & Hu).
  rewrite presses_snoc in Hm, Hu. simpl in Hm, Hu.
  split.
  - simpl. rewrite dispatch_mousemove_logs, Hm.
    by rewrite run_app.
  - assert (isResizing (step MouseUp (run (evs ++ [MouseDown e]) init)).1 = false) as Hoff.
    { apply release_ends_resize; [done |]. intros Hnil. by rewrite Hnil in Hu. }
    simpl in *. by rewrite dispatch_mousemove_logs, Hoff.
Qed.
End resizer.

(** ** The connection panel's clock *)

Lemma div_bounds (d k lo hi : Z) :
  0 < k → lo * k ≤ d < hi * k → lo ≤ d `div` k < hi.
Proof.
  intros Hk [Hlo Hhi]. split.
  - by apply Z.div_le_lower_bound; [| lia].
  - by apply Z.div_lt_upper_bound; [| lia].
Qed.

(** X18.  [formatTimeAgo] shows whole elapsed units, rounded down: less
    than a minute (a date in the future included) is [just now]; below an
    hour it shows 1 to 59 minutes, below a day 1 to 23 hours, and from
    one day on the number of whole days. *)
Theorem formatTimeAgo_cases now date :
  let d := now - date in
  (d < 60000 → formatTimeAgo now date = "just now") ∧
  (60000 ≤ d < 3600000 →
     formatTimeAgo now date = pretty (d `div` 60000) +:+ " minutes ago" ∧
     1 ≤ d `div` 60000 < 60) ∧
  (3600000 ≤ d < 86400000 →
     formatTimeAgo now date = pretty (d `div` 3600000) +:+ " hours ago" ∧
     1 ≤ d `div` 3600000 < 24) ∧
  (86400000 ≤ d →
     formatTimeAgo now date = pretty (d `div` 86400000) +:+ " days ago" ∧
     1 ≤ d `div` 86400000).
Proof.
  cbv zeta. unfold formatTimeAgo. change (1000 * 60) with 60000.
  set (d := now - date).
  assert ((d `div` 60000) `div` 60 = d `div` 3600000) as Hh
    by (rewrite Z.div_div by lia; done).
  assert ((d `div` 3600000) `div` 24 = d `div` 86400000) as Hd
    by (rewrite Z.div_div by lia; done).
  split_and!.
  - intros Hlt. rewrite decide_True; [done |].
    apply Z.div_lt_upper_bound; lia.
  - intros Hr. pose proof (div_bounds d 60000 1 60 ltac:(lia) ltac:(lia)).
    rewrite decide_False by lia. rewrite decide_True by lia. done.
  - intros Hr. pose proof (div_bounds d 60000 60 1440 ltac:(lia) ltac:(lia)).
    pose proof (div_bounds d 3600000 1 24 ltac:(lia) ltac:(lia)).
    rewrite decide_False by lia. rewrite decide_False by lia.
    rewrite Hh. rewrite decide_True by lia. done.
  - intros Hr.
    assert (1440 ≤ d `div` 60000) by (apply Z.div_le_lower_bound; lia).
    assert (24 ≤ d `div` 3600000) by (apply Z.div_le_lower_bound; lia).
    assert (1 ≤ d `div` 86400000) by (apply Z.div_le_lower_bound; lia).
    rewrite decide_False by lia. rewrite decide_False by lia.
    rewrite Hh. rewrite decide_False by lia. rewrite Hd. done.
Qed.

Lemma formatTimeAgo_cases_witness :
  formatTimeAgo 1000 5000 = "just now" ∧
  (formatTimeAgo 125000 0 = pretty (125000 `div` 60000) +:+ " minutes ago" ∧
   1 ≤ 125000 `div` 60000 < 60) ∧
  (formatTimeAgo 7300000 0 = pretty (7300000 `div` 3600000) +:+ " hours ago" ∧
   1 ≤ 7300000 `div` 3600000 < 24) ∧
  (formatTimeAgo 200000000 0 = pretty (200000000 `div` 86400000) +:+ " days ago" ∧
   1 ≤ 200000000 `div` 86400000).
Proof.
  split; [| split; [| split]].
  - destruct (formatTimeAgo_cases 1000 5000) as (H & _). apply H. reflexivity.
  - destruct (formatTimeAgo_cases 125000 0) as (_ & H & _). apply H. split; [discriminate | reflexivity].
  - destruct (formatTimeAgo_cases 7300000 0) as (_ & _ & H & _). apply H. split; [discriminate | reflexivity].
  - destruct (formatTimeAgo_cases 200000000 0) as (_ & _ & _ & H). apply H. discriminate.
Defined.

(** ** The callers *)

(** Run the plumbing of the callers' monad. *)
Ltac run_ui :=
  cbv [mbind mret UI_bind UI_ret ui_bind ui_ret ui_try ui_emit ui_gets ui_modify
       ui_result ui_final ui_effects];
  simpl.

Lemma lift_connect_resolved config now id s :
  lift (connect config now (Returned id)) s =
  UiOutcome (Returned id)
    {| app := with_ssh (λ m,
         {| connections := <[id := connection_of config now id]> (connections m);
            currentConnection := Some id |}) (app s);
       sshConfigManager := sshConfigManager s |}
    [Core (Invoke "connect_ssh"
       [("host", JStr (SSHConfig.host config));
        ("port", JNum (SSHConfig.port config));
        ("username", JStr (SSHConfig.username config));
        ("keyPath", js_opt (SSHConfig.keyPath config));
        ("password", js_opt (SSHConfig.password config))])].
Proof. unfold lift. by rewrite connect_resolved. Qed.

Lemma lift_connect_rejected config now e s :
  lift (connect config now (Thrown e)) s =
  UiOutcome (Thrown e)
    {| app := app s; sshConfigManager := sshConfigManager s |}
    [Core (Invoke "connect_ssh"
       [("host", JStr (SSHConfig.host config));
        ("port", JNum (SSHConfig.port config));
        ("username", JStr (SSHConfig.username config));
        ("keyPath", js_opt (SSHConfig.keyPath config));
        ("password", js_opt (SSHConfig.password config))]);
     Core (ConsoleError "Failed to connect to SSH:" [JStr e])].
Proof. unfold lift. by rewrite connect_rejected. Qed.

(** [Storage.set] returns and leaves the managers as they were. *)
Lemma Storage_set_returns key value reply s :
  ui_result (Storage.set key value reply s) = Returned tt ∧
  ui_final (Storage.set key value reply s) = s.
Proof. unfold Storage.set. run_ui. by destruct reply as [[] | e]. Qed.

Ltac ui_steps :=
  cbv [mbind mret UI_bind UI_ret ui_bind ui_ret ui_try ui_emit ui_gets ui_modify
       ui_result ui_final ui_effects].

(** X19.  Submitting the connection form never throws.  When the backend
    connects, the dialog's manager holds the identifier the registry now
    has as its current connection, the form is handed to the store under
    [ssh_config] and the dialog closes, also when saving fails: a
    failure to save is only logged.  When the backend refuses, the dialog
    stays open with [Connection failed], nothing is saved and neither the
    manager nor the registry changes. *)
Theorem form_submit_connects_and_saves config now saved s :
  (∀ id,
     let o := handleFormSubmit config now (Returned id) saved s in
     ui_result o = Returned tt ∧
     sshConfigManager (ui_final o)
     = {| SSHConfigManager.isConnected := true;
          SSHConfigManager.currentConnectionId := Some id |} ∧
     current (app (ui_final o)) = Some id ∧
     registry (app (ui_final o)) !! id
     = Some (connection_of (ssh_config_of config) now id) ∧
     SetStorage "ssh_config" (StoredConfig config) ∈ ui_effects o ∧
     HideConfigModal ∈ ui_effects o) ∧
  (∀ e,
     let o := handleFormSubmit config now (Thrown e) saved s in
     ui_result o = Returned tt ∧
     sshConfigManager (ui_final o) = sshConfigManager s ∧
     app (ui_final o) = app s ∧
     ui_backend_calls (ui_effects o) = ["connect_ssh"] ∧
     Notification ("Connection failed: " +:+ e) "error" ∈ ui_effects o ∧
     HideConfigModal ∉ ui_effects o).
Proof.
  split.
  - intros id. cbv zeta.
    unfold handleFormSubmit, config_connect, hideConfigModal, showNotification,
      updateConnectionStatus, Storage.set.
    ui_steps. rewrite lift_connect_resolved. ui_steps.
    destruct saved as [[] | e']; simpl;
      (split_and!; [done | done | done | by rewrite lookup_insert_eq | among | among]).
  - intros e. cbv zeta.
    unfold handleFormSubmit, config_connect, hideConfigModal, showNotification.
    ui_steps. rewrite lift_connect_rejected. ui_steps. simpl.
    split_and!; [done | done | done | done | among | not_among].
Qed.

(** X20.  [SSHConfigManager.disconnect] does nothing, and asks the
    backend nothing, when the manager holds no connection.  When it holds
    one and the backend acknowledges, the manager is cleared and the
    registry no longer has the connection.  When the backend fails, the
    error reaches the caller and the manager still holds the connection,
    which the registry still has. *)
Theorem config_disconnect_cases id s :
  (SSHConfigManager.currentConnectionId (sshConfigManager s) = None →
     ∀ reply, config_disconnect reply s = UiOutcome (Returned tt) s []) ∧
  (SSHConfigManager.currentConnectionId (sshConfigManager s) = Some id → id ≠ "" →
     (let o := config_disconnect (Returned tt) s in
      ui_result o = Returned tt ∧
      sshConfigManager (ui_final o)
      = {| SSHConfigManager.isConnected := false;
           SSHConfigManager.currentConnectionId := None |} ∧
      registry (app (ui_final o)) !! id = None ∧
      ui_backend_calls (ui_effects o) = ["disconnect_ssh"]) ∧
     (∀ e,
        let o := config_disconnect (Thrown e) s in
        ui_result o = Thrown e ∧
        sshConfigManager (ui_final o) = sshConfigManager s ∧
        app (ui_final o) = app s)).
Proof.
  split.
  - intros Hnone reply. unfold config_disconnect. ui_steps. by rewrite Hnone.
  - intros Hsome Hid. split.
    + cbv zeta. unfold config_disconnect, updateConnectionStatus. ui_steps.
      rewrite Hsome, (falsy_false id Hid). unfold lift.
      rewrite disconnect_resolved. simpl.
      split_and!; try done. apply lookup_delete_eq.
    + intros e. cbv zeta. unfold config_disconnect. ui_steps.
      rewrite Hsome, (falsy_false id Hid). unfold lift.
      by rewrite disconnect_rejected.
Qed.

Lemma config_disconnect_cases_witness :
  config_disconnect (Thrown "x") shell_initial = UiOutcome (Returned tt) shell_initial [] ∧
  (ui_result (config_disconnect (Returned tt) connected_shell) = Returned tt ∧
   sshConfigManager (ui_final (config_disconnect (Returned tt) connected_shell))
   = {| SSHConfigManager.isConnected := false;
        SSHConfigManager.currentConnectionId := None |} ∧
   registry (app (ui_final (config_disconnect (Returned tt) connected_shell))) !! "conn-1"
   = None ∧
   ui_backend_calls (ui_effects (config_disconnect (Returned tt) connected_shell))
   = ["disconnect_ssh"]).
Proof.
  split.
  - destruct (config_disconnect_cases "" shell_initial) as [H _]. apply H. reflexivity.
  - destruct (config_disconnect_cases "conn-1" connected_shell) as [_ H].
    assert (SSHConfigManager.currentConnectionId (sshConfigManager connected_shell)
            = Some "conn-1") as Hheld by reflexivity.
    assert ("conn-1" ≠ "") as Hid by discriminate.
    exact (proj1 (H Hheld Hid)).
Defined.

(** X21.  The status bar's transfer count never fails: it shows the number
    of transfers the backend lists, and when the backend cannot be asked
    it shows [0 transfers], as for an empty list; its own [catch] branch
    is never taken. *)
Theorem updateFileCount_shows_length reply s :
  let o := updateFileCount reply s in
  ui_result o = Returned tt ∧
  app (ui_final o) = app s ∧
  SetTextContent "file-count"
    (pretty (length (match reply with Returned l => l | Thrown _ => [] end))
     +:+ " transfers") ∈ ui_effects o ∧
  (∀ args, Core (ConsoleError "Failed to update file count:" args) ∉ ui_effects o).
Proof.
  cbv zeta. unfold updateFileCount, lift. ui_steps.
  destruct reply as [l | e]; simpl;
    (split_and!; [done | done | among | intros args; not_among]).
Qed.

(** X22.  No method of [Storage] throws.  When the backend fails, [get]
    yields null, [keys] an empty list and [has] false, [set], [remove]
    and [clear] return, and the failure is logged; the managers' state is
    never touched.  [get] makes no use of [forceReload]. *)
Theorem storage_never_throws (A : Type) key value e s :
  (∀ (reply : completion (option A)) forceReload,
     thrown_ui (Storage.get key forceReload reply s) = None ∧
     Storage.get key forceReload reply s = Storage.get key false reply s) ∧
  ui_result (Storage.get (A := A) key false (Thrown e) s) = Returned None ∧
  (∀ reply, ui_result (Storage.set key value reply s) = Returned tt) ∧
  (∀ reply, ui_result (Storage.remove key reply s) = Returned tt) ∧
  (∀ reply, ui_result (Storage.clear reply s) = Returned tt) ∧
  (∀ reply, thrown_ui (Storage.keys reply s) = None) ∧
  ui_result (Storage.keys (Thrown e) s) = Returned [] ∧
  (∀ reply, thrown_ui (Storage.has key reply s) = None) ∧
  ui_result (Storage.has key (Thrown e) s) = Returned false ∧
  (∀ reply, app (ui_final (Storage.set key value reply s)) = app s).
Proof.
  unfold thrown_ui, Storage.get, Storage.set, Storage.remove, Storage.clear,
    Storage.keys, Storage.has, lift, invoke.
  ui_steps.
  split_and!; try done; intros reply; try intros forceReload;
    by destruct reply as [[] | e'] || destruct reply as [v | e'].
Qed.

(** ** Themes *)

Section theme.
Import Theme.

Lemma getCurrentTheme_setTheme theme p :
  getCurrentTheme (setTheme theme p) = if falsy theme then THEME_LIGHT else theme.
Proof.
  unfold getCurrentTheme, setTheme, getAttribute.
  destruct (storage_defined _); simpl; by rewrite lookup_insert_eq; simpl;
    rewrite lookup_insert_eq.
Qed.

(** X24.  [toggleTheme] switches between light and dark: from the light
    theme it goes to dark, from any other theme (dark, custom, or a name
    it does not know) to light; so the theme after a toggle is always
    light or dark, and two toggles give back a light or a dark theme but
    turn any other theme into dark. *)
Theorem toggleTheme_switches p :
  getCurrentTheme (toggleTheme p)
  = (if decide (getCurrentTheme p = THEME_LIGHT) then THEME_DARK else THEME_LIGHT) ∧
  (getCurrentTheme p = THEME_LIGHT ∨ getCurrentTheme p = THEME_DARK →
     getCurrentTheme (toggleTheme (toggleTheme p)) = getCurrentTheme p) ∧
  (getCurrentTheme p ≠ THEME_LIGHT →
     getCurrentTheme (toggleTheme (toggleTheme p)) = THEME_DARK).
Proof.
  assert (∀ q, getCurrentTheme (toggleTheme q)
               = if decide (getCurrentTheme q = THEME_LIGHT) then THEME_DARK
                 else THEME_LIGHT) as Htoggle.
  { intros q. unfold toggleTheme. rewrite getCurrentTheme_setTheme.
    by case_decide. }
  split_and!.
  - apply Htoggle.
  - intros [Hl | Hd]; rewrite !Htoggle.
    + rewrite Hl. reflexivity.
    + rewrite Hd. reflexivity.
  - intros Hne. rewrite !Htoggle.
    destruct (decide (getCurrentTheme p = THEME_LIGHT)); [done | reflexivity].
Qed.

Lemma toggleTheme_switches_witness :
  getCurrentTheme (toggleTheme (toggleTheme (fresh true)))
  = getCurrentTheme (fresh true) ∧
  getCurrentTheme (toggleTheme (toggleTheme (updateTheme "*" (Some "solarized") (fresh true))))
  = THEME_DARK.
Proof.
  split.
  - destruct (toggleTheme_switches (fresh true)) as (_ & H & _). apply H.
    left. reflexivity.
  - destruct (toggleTheme_switches (updateTheme "*" (Some "solarized") (fresh true)))
      as (_ & _ & H).
    apply H. discriminate.
Defined.

(** X25.  The theme is remembered across page loads: after [setTheme]
    with a non-empty name, on a page where the [Storage] interface is
    defined, [loadTheme] on any page that has the same [localStorage]
    shows that theme again.  With nothing remembered, [loadTheme] follows
    the system's colour scheme. *)
Theorem theme_survives_reload theme p q :
  (storage_defined p = true → theme ≠ "" →
     localStorage q = localStorage (setTheme theme p) →
     getCurrentTheme (loadTheme q) = theme) ∧
  (localStorage q !! "circle9-theme" = None →
     getCurrentTheme (loadTheme q)
     = if prefersDark q then THEME_DARK else THEME_LIGHT).
Proof.
  split.
  - intros Hdef Hne Hsame.
    assert (localStorage q !! "circle9-theme" = Some theme) as Hsaved.
    { rewrite Hsame. unfold setTheme. simpl. rewrite Hdef. simpl.
      apply lookup_insert_eq. }
    unfold loadTheme. rewrite Hsaved, (falsy_false theme Hne).
    by rewrite getCurrentTheme_setTheme, (falsy_false theme Hne).
  - intros Hnone. unfold loadTheme. rewrite Hnone.
    unfold updateTheme, getCurrentTheme, getAttribute. simpl.
    rewrite lookup_insert_eq. simpl. rewrite lookup_insert_eq.
    by destruct (prefersDark q).
Qed.

Lemma theme_survives_reload_witness :
  getCurrentTheme (loadTheme (reload (setTheme "dark" (fresh false)))) = "dark" ∧
  getCurrentTheme (loadTheme (reload (fresh true))) = THEME_DARK.
Proof.
  split.
  - destruct (theme_survives_reload "dark" (fresh false)
                (reload (setTheme "dark" (fresh false)))) as [H _].
    apply H; [reflexivity | discriminate | reflexivity].
  - destruct (theme_survives_reload "dark" (fresh true) (reload (fresh true))) as [_ H].
    apply H. reflexivity.
Defined.
End theme.

(** ** [String.prototype.includes] *)

Lemma prefix_spec sub s : String.prefix sub s = true ↔ ∃ post, s = sub +:+ post.
Proof.
  revert s. induction sub as [| c sub IH]; intros s; simpl.
  - split; [intros _; by exists s | intros _; by destruct s].
  - destruct s as [| c' s]; simpl.
    + split; [done | intros [post H]; discriminate H].
    + destruct (Ascii.ascii_dec c c') as [-> | Hne].
      * rewrite IH. split; intros [post H]; exists post; [by rewrite H | by injection H].
      * split; [done | intros [post H]; injection H; congruence].
Qed.

(** [includes] holds exactly of the strings that contain [sub]. *)
Lemma includes_spec s sub :
  includes s sub = true ↔ ∃ pre post, s = pre +:+ sub +:+ post.
Proof.
  induction s as [| c s IH].
  - change (includes "" sub) with (String.prefix sub "" || false).
    rewrite orb_false_r, prefix_spec. split.
    + intros [post H]. by exists "", post.
    + intros (pre & post & H). destruct pre; [by exists post |]. discriminate H.
  - change (includes (String c s) sub)
      with (String.prefix sub (String c s) || includes s sub).
    rewrite orb_true_iff, prefix_spec, IH. split.
    + intros [[post H] | (pre & post & H)].
      * by exists "", post.
      * exists (String c pre), post. simpl. by rewrite H.
    + intros (pre & post & H). destruct pre as [| c' pre]; simpl in H.
      * left. by exists post.
      * right. injection H as _ H. by exists pre, post.
Qed.

